(** * The admin-panel request helper ([utils/request.js])

    A shallow embedding of the [request] wrapper around [fetch] and of its
    private helpers ([parseJSON], [checkStatus], [checkTokenValidity],
    [formatQueryParams], [serverRestartWatcher]), with the properties of
    its status, token and restart-watch handling.

    The repository holds two copies of the file that differ only in the
    multipart branch of [request]:
    - [src/packages/strapi-helper-plugin/lib/src/utils/request.js], which
      collects the captions of the file entries and drops them;
    - [src/unnamed/part_000], which appends them as sibling fields.
    Both are embedded; [Revision] selects the copy. *)

From Stdlib Require Import ZArith NArith Lia List Ascii String Bool
  DecimalString.
From stdpp Require Import base option list strings gmap.

Local Open Scope string_scope.
Local Open Scope Z_scope.
Local Open Scope list_scope.

(** ** JavaScript data *)

(** Parsed JSON bodies. *)
#[warnings="-register-all"]
Inductive Json :=
| JNull
| JBool (b : bool)
| JNum (n : Z)
| JStr (s : string)
| JArr (l : list Json)
| JObj (o : list (string * Json)).

(** [if (x)] on a JSON value. *)
Definition truthy (j : Json) : bool :=
  match j with
  | JNull => false
  | JBool b => b
  | JNum n => negb (n =? 0)
  | JStr s => negb (String.eqb s "")
  | JArr _ | JObj _ => true
  end.

(** [JSON.stringify] on these values. A string is quoted; inside it the
    quote and the backslash are preceded by a backslash, backspace, tab,
    line feed, form feed and carriage return take their short escapes,
    and the other control characters become [u00XX] escapes with
    lower-case digits; the bytes of a character outside ASCII are left
    as they are. The properties of an object come in the order
    [Object.keys] lists them. [JNum n] stands for a safe integer (below
    2^53 in absolute value), which prints as its decimal digits. *)
Definition lowerHex (n : N) : ascii :=
  if (n <? 10)%N then ascii_of_N (48 + n) else ascii_of_N (87 + n).

Definition doubleQuote : ascii := ascii_of_N 34.

Definition backslash : ascii := ascii_of_N 92.

Definition escapeJsonChar (c : ascii) : string :=
  let n := N_of_ascii c in
  if (n =? 34)%N then String backslash (String doubleQuote "")
  else if (n =? 92)%N then String backslash (String backslash "")
  else if (n =? 8)%N then String backslash "b"
  else if (n =? 9)%N then String backslash "t"
  else if (n =? 10)%N then String backslash "n"
  else if (n =? 12)%N then String backslash "f"
  else if (n =? 13)%N then String backslash "r"
  else if (n <? 32)%N
  then String backslash
         ("u00" +:+ String (lowerHex (n / 16)) (String (lowerHex (n mod 16)) ""))
  else String c "".

Fixpoint escapeJson (s : string) : string :=
  match s with
  | "" => ""
  | String c s' => escapeJsonChar c +:+ escapeJson s'
  end.

Definition quoteJson (s : string) : string :=
  String doubleQuote (escapeJson s +:+ String doubleQuote "").

Fixpoint stringifyJson (j : Json) : string :=
  match j with
  | JNull => "null"
  | JBool true => "true"
  | JBool false => "false"
  | JNum n => NilEmpty.string_of_int (Z.to_int n)
  | JStr s => quoteJson s
  | JArr l => "[" +:+ String.concat "," (map stringifyJson l) +:+ "]"
  | JObj o =>
      "{" +:+
      String.concat ","
        (map (fun kv => let (k, v) := kv : string * Json in
                        quoteJson k +:+ ":" +:+ stringifyJson v) o)
      +:+ "}"
  end.

(** [if (s)] on a string that may be [null]. *)
Definition truthyStr (s : option string) : bool :=
  match s with
  | Some s => negb (String.eqb s "")
  | None => false
  end.

(** A template literal [`${s}`] of a string that may be [null]. *)
Definition template (s : option string) : string := default "null" s.

(** A plain object used as a record of string properties, in the order
    [Object.keys] lists them. *)
Definition Params := list (string * string).

Definition keys (o : Params) : list string := map fst o.

(** [o[k]]: the value of the first (and, in an object, only) property [k]. *)
Fixpoint prop (o : Params) (k : string) : option string :=
  match o with
  | [] => None
  | (k', v) :: o' => if String.eqb k' k then Some v else prop o' k
  end.

(** ** encodeURIComponent

    Strings are the UTF-8 bytes of the JavaScript string, so that
    [encodeURIComponent] escapes byte by byte: every byte but the
    unreserved marks [A-Z a-z 0-9 - _ . ! ~ * ' ( )] becomes [%XX]. (A
    lone surrogate, on which it throws, has no UTF-8 form.) *)

Definition isUnreserved (c : ascii) : bool :=
  let n := N_of_ascii c in
  ((65 <=? n) && (n <=? 90) || (97 <=? n) && (n <=? 122)
   || (48 <=? n) && (n <=? 57))%N
  || existsb (Ascii.eqb c)
       ["-"; "_"; "."; "!"; "~"; "*"; "'"; "("; ")"]%char.

Definition hexDigit (n : N) : ascii :=
  if (n <? 10)%N then ascii_of_N (48 + n) else ascii_of_N (55 + n).

Definition encodeByte (c : ascii) : string :=
  if isUnreserved c then String c ""
  else
    let n := N_of_ascii c in
    String "%" (String (hexDigit (n / 16)) (String (hexDigit (n mod 16)) "")).

Fixpoint encodeURIComponent (s : string) : string :=
  match s with
  | "" => ""
  | String c s' => encodeByte c +:+ encodeURIComponent s'
  end.

(** ** formatQueryParams *)

Definition formatPair (params : Params) (k : string) : string :=
  encodeURIComponent k +:+ "=" +:+
  encodeURIComponent (default "undefined" (prop params k)).

Definition formatQueryParams (params : Params) : string :=
  String.concat "&" (map (formatPair params) (keys params)).

(** [_.startsWith(url, '/')] *)
Definition startsWithSlash (url : string) : bool :=
  match url with
  | String c _ => Ascii.eqb c "/"
  | "" => false
  end.


(** ** Multipart bodies *)

(** A [File] as the upload widget hands it over: [addFilesToProps] sets
    [caption] from the caption typed for it, [undefined] when none was. *)
Record File := {
  fileName : string;
  caption : option string
}.

(** An entry of a [FormData]: a string or a [File]. *)
Inductive FormValue :=
| FString (s : string)
| FFile (f : File).

Definition FormData := list (string * FormValue).

Definition isFile (v : FormValue) : bool :=
  match v with
  | FFile _ => true
  | FString _ => false
  end.

(** [body.getAll(name)] *)
Definition getAll (body : FormData) (name : string) : list FormValue :=
  map snd (List.filter (fun e => String.eqb (fst e) name) body).

(** What [append] stores for a value that is not a [File]: its string
    conversion. *)
Definition toUSVString (v : option string) : string := default "undefined" v.

(** [body.append(name, value)] for such a value. *)
Definition append (body : FormData) (name : string) (v : option string)
  : FormData :=
  body ++ [(name, FString (toUSVString v))].

(** [Array.from(new Set(l))]: first occurrences, in order. *)
Fixpoint dedupe (seen l : list string) : list string :=
  match l with
  | [] => []
  | x :: l' =>
      if existsb (String.eqb x) seen then dedupe seen l'
      else x :: dedupe (x :: seen) l'
  end.

(** The first loop of the multipart branch: the names of the entries that
    hold a [File]. *)
Definition fileFieldsOf (body : FormData) : list string :=
  dedupe [] (map fst (List.filter (fun e => isFile (snd e)) body)).

(** The inner loop of [part_000]: one [append] per [File] entry of
    [field], over the snapshot [getAll] returned. *)
Definition appendCaptionsOf (field : string) (body : FormData) : FormData :=
  fold_left
    (fun b fileEntry =>
       match fileEntry with
       | FFile f => append b (field +:+ "Captions") (caption f)
       | FString _ => b
       end)
    (getAll body field) body.

(** The outer loop of [part_000]. *)
Definition appendCaptions (body : FormData) : FormData :=
  fold_left (fun b field => appendCaptionsOf field b) (fileFieldsOf body) body.

(** The inner loop of the helper-plugin copy: the [files] array built for
    [field]; a string entry has no [caption]. *)
Definition collectFiles (field : string) (body : FormData)
  : list (option string * FormValue) :=
  map (fun fileEntry =>
         (match fileEntry with
          | FFile f => caption f
          | FString _ => None
          end, fileEntry))
      (getAll body field).

(** The outer loop of the helper-plugin copy: every [files] array is
    dropped ([body.set] is commented out), the body stays as it is. *)
Definition collectCaptions (body : FormData) : FormData :=
  fold_left (fun b field => let _ := collectFiles field b in b)
            (fileFieldsOf body) body.

(** ** Requests and responses *)

Inductive HeaderValue :=
| HStr (s : string)
| HBool (b : bool).

Inductive Body :=
| BJson (j : Json)
| BForm (fd : FormData).

(** The [options] object of [request] and of [fetch]; [None] is an absent
    property. *)
Record Options := {
  method : option string;
  mode : option string;
  headers : option (gmap string HeaderValue);
  body : option Body;
  params : option Params
}.

(** What a promise from outside the module ([response.json()]) settles
    to. *)
Inductive Settlement :=
| Delivers (b : Json)
| Fails (reason : string).

(** A response as [fetch] delivers it. [json] is [None] when the object
    has no [json] method (a mock, an already parsed body); [payload] is
    the attribute the error path of [checkStatus] sets. *)
Record Response := {
  status : Z;
  statusText : string;
  json : option Settlement;
  payload : option Json
}.

Definition setPayload (r : Response) (b : Json) : Response :=
  {| status := status r; statusText := statusText r; json := json r;
     payload := Some b |}.

Inductive Error :=
| HttpError (message : string) (response : Response)
| TypeError (message : string)
| External (reason : string).

(** Values the promise of [request] is fulfilled with: a parsed body, or
    the response itself when it has no [json] method. *)
Inductive Value :=
| VResponse (r : Response)
| VJson (b : Json).

(** A promise, seen when the run is over. [Pending] is one that has not
    settled by then. *)
Inductive Promise (A : Type) :=
| Pending
| Fulfilled (a : A)
| Rejected (e : Error).
Arguments Pending {A}.
Arguments Fulfilled {A} a.
Arguments Rejected {A} e.

(** How a call ends. *)
Inductive Completion (A : Type) :=
| Return (a : A)
| ReturnPromise (p : Promise A)
| Throw (e : Error).
Arguments Return {A} a.
Arguments ReturnPromise {A} p.
Arguments Throw {A} e.

(** A synchronous step that may throw. *)
Inductive Try (A : Type) :=
| Ok (a : A)
| Raise (e : Error).
Arguments Ok {A} a.
Arguments Raise {A} e.

(** The promise a [then] callback that ends with [c] resolves. *)
Definition settle {A} (c : Completion A) : Promise A :=
  match c with
  | Return a => Fulfilled a
  | ReturnPromise p => p
  | Throw e => Rejected e
  end.

Definition ofSettlement (s : Settlement) : Promise Value :=
  match s with
  | Delivers b => Fulfilled (VJson b)
  | Fails reason => Rejected (External reason)
  end.

(** ** The host: globals, token store, network *)

Inductive Event :=
| EFetch (url : string) (opts : Options)
| ENavigate (url : string)
| EClearAppStorage
| ELockApp
| EUnlockApp
| ESetTimeout (ms : nat)
| EConsoleLog (b : Body).

Inductive FetchResult :=
| FResolve (r : Response)
| FReject (reason : string).

(** The [strapi] global and the browser primitives. [net n url opts] is
    how the [n]-th [fetch] of the run settles. *)
Record Host := {
  backendURL : string;
  remoteURL : string;
  net : nat -> string -> Options -> FetchResult;
  JSON_stringify : Json -> string
}.

(** What a run reads and writes: the token store, [window.location], the
    overlay blocker, the number of fetches issued and the events so far,
    oldest first. A run is one call of [request], followed until its
    promise settles; the callbacks of its chain run in the order the
    event loop runs them, and other calls are outside the model. *)
Record State := {
  token : option string;
  location : option string;
  locked : bool;
  fetches : nat;
  trace : list Event
}.

Definition M (A : Type) : Type := State -> A * State.

Definition ret {A} (a : A) : M A := fun st => (a, st).

Definition bind {A B} (m : M A) (k : A -> M B) : M B :=
  fun st => let (a, st') := m st in k a st'.

Declare Scope js_scope.
Delimit Scope js_scope with js.
Notation "x <- m ;; k" := (bind m (fun x => k))
  (at level 100, m at next level, right associativity) : js_scope.
Notation "m ;;; k" := (bind m (fun _ => k))
  (at level 100, right associativity) : js_scope.
Local Open Scope js_scope.

Definition emit (e : Event) : M unit :=
  fun st =>
    (tt, {| token := token st; location := location st; locked := locked st;
            fetches := fetches st; trace := trace st ++ [e] |}).

(** [p.then(cb)] *)
Definition andThen {A B} (p : Promise A) (cb : A -> M (Completion B))
  : M (Promise B) :=
  match p with
  | Fulfilled a => c <- cb a ;; ret (settle c)
  | Rejected e => ret (Rejected e)
  | Pending => ret Pending
  end.

(** [Object.assign(target, ...sources)]: later sources win; an absent
    source is skipped. *)
Definition assign (target : gmap string HeaderValue)
    (sources : list (option (gmap string HeaderValue)))
  : gmap string HeaderValue :=
  fold_left (fun acc src => match src with Some m => m ∪ acc | None => acc end)
            sources target.

Inductive Revision :=
| HelperPlugin
| Part000.

Definition loginPath : string := "/plugins/users-permissions/auth/login".

Section Program.

Variable h : Host.

(** *** Host primitives *)

Definition fetch (url : string) (opts : Options) : M (Promise Response) :=
  fun st =>
    (match net h (fetches st) url opts with
     | FResolve r => Fulfilled r
     | FReject reason => Rejected (External reason)
     end,
     {| token := token st; location := location st; locked := locked st;
        fetches := S (fetches st); trace := trace st ++ [EFetch url opts] |}).

(** Modelled from the spec: the token store [utils/auth] is not among the
    sources; [getToken() → string|null] reads the credential and
    [clearAppStorage() → void] clears it. *)
Definition getToken : M (option string) := fun st => (token st, st).

(** Modelled from the spec: [clearAppStorage() → void] of the same
    store clears the credential (and whatever else the store keeps). *)
Definition clearAppStorage : M unit :=
  fun st =>
    (tt, {| token := None; location := location st; locked := locked st;
            fetches := fetches st; trace := trace st ++ [EClearAppStorage] |}).

(** [window.location = url] *)
Definition navigate (url : string) : M unit :=
  fun st =>
    (tt, {| token := token st; location := Some url; locked := locked st;
            fetches := fetches st; trace := trace st ++ [ENavigate url] |}).

(** Modelled from the spec: [strapi.lockApp()] and [strapi.unlockApp()]
    are the host's signals that show and hide the overlay blocking the
    UI; the [strapi] global is not among the sources. *)
Definition lockApp : M unit :=
  fun st =>
    (tt, {| token := token st; location := location st; locked := true;
            fetches := fetches st; trace := trace st ++ [ELockApp] |}).

Definition unlockApp : M unit :=
  fun st =>
    (tt, {| token := token st; location := location st; locked := false;
            fetches := fetches st; trace := trace st ++ [EUnlockApp] |}).

Definition setTimeout (ms : nat) : M unit := emit (ESetTimeout ms).

Definition consoleLog (b : Body) : M unit := emit (EConsoleLog b).

(** *** parseJSON *)

Definition parseJSON (response : option Response) : Completion Value :=
  match response with
  | Some r =>
      match json r with
      | Some s => ReturnPromise (ofSettlement s)
      | None => Return (VResponse r)
      end
  | None => Throw (TypeError "Cannot read property 'json' of undefined")
  end.

(** *** checkStatus and checkTokenValidity *)

(** The last statement of [checkStatus],
    [parseJSON(response).then(responseFormatted => { ... throw error })]:
    when [response.json()] delivers a body the callback throws the error
    built from it, which rejects the promise [.then] made; when it fails
    the failure passes through; and on the raw response that [parseJSON]
    returns for want of a [json] method, [.then] is not a function. *)
Definition throwWithPayload (response : Response)
  : Completion (option Response) :=
  match json response with
  | Some (Delivers responseFormatted) =>
      ReturnPromise
        (Rejected (HttpError (statusText response)
                             (setPayload response responseFormatted)))
  | Some (Fails reason) => ReturnPromise (Rejected (External reason))
  | None => Throw (TypeError "parseJSON(...).then is not a function")
  end.

(** [auth.getToken()] only reads the store, so that reading it before
    the test of the status changes nothing. *)
Definition checkStatusWith
    (checkTokenValidity : Response -> M (Completion (option Response)))
    (response : Response) (checkToken : bool)
  : M (Completion (option Response)) :=
  if (200 <=? status response) && (status response <? 300)
  then ret (Return (Some response))
  else
    tok <- getToken ;;
    if (status response =? 401) && truthyStr tok && checkToken
    then checkTokenValidity response
    else ret (throwWithPayload response).

(** The [options] literal of [checkTokenValidity]. *)
Definition userMeOptions (tok : option string) : Options :=
  {| method := Some "GET"; mode := None;
     headers := Some {[ "Content-Type" := HStr "application/json";
                        "Authorization" := HStr ("Bearer " +:+ template tok) ]};
     body := None; params := None |}.

Definition checkTokenValidityWith
    (checkStatus : Response -> bool -> M (Completion (option Response)))
    (response : Response)
  : M (Completion (option Response)) :=
  tok <- getToken ;;
  let options := userMeOptions tok in
  tok' <- getToken ;;
  if truthyStr tok' then
    p <- fetch (backendURL h +:+ "/user/me") options ;;
    p' <- andThen p (fun _ =>
            (if status response =? 401
             then navigate (remoteURL h +:+ loginPath) ;;; clearAppStorage
             else ret tt) ;;;
            checkStatus response false) ;;
    ret (ReturnPromise p')
  else ret (Return None).

(** The two functions call each other; [checkStatus(response, false)]
    never reaches [checkTokenValidity], which closes the recursion. *)
Definition checkStatusUnchecked (response : Response)
  : M (Completion (option Response)) :=
  checkStatusWith (fun _ => ret (Return None)) response false.

Definition checkTokenValidity (response : Response)
  : M (Completion (option Response)) :=
  checkTokenValidityWith (fun r _ => checkStatusUnchecked r) response.

Definition checkStatus (response : Response) (checkToken : bool)
  : M (Completion (option Response)) :=
  checkStatusWith checkTokenValidity response checkToken.

(** *** serverRestartWatcher *)

Definition healthOptions : Options :=
  {| method := Some "HEAD"; mode := Some "no-cors";
     headers := Some {[ "Content-Type" := HStr "application/json";
                        "Keep-Alive" := HBool false ]};
     body := None; params := None |}.

(** [fuel] bounds the number of polls the run covers; the promise is
    still [Pending] when all of them failed. *)
Fixpoint serverRestartWatcher (fuel : nat) (response : Value)
  : M (Promise Value) :=
  match fuel with
  | O => ret Pending
  | S fuel' =>
      p <- fetch (backendURL h +:+ "/_health") healthOptions ;;
      match p with
      | Fulfilled _ => unlockApp ;;; ret (Fulfilled response)
      | Rejected _ =>
          setTimeout 100 ;;; serverRestartWatcher fuel' response
      | Pending => ret Pending
      end
  end.

(** *** request *)

Definition contentTypeJson : gmap string HeaderValue :=
  {[ "Content-Type" := HStr "application/json" ]}.

Definition forwardedHost : gmap string HeaderValue :=
  {[ "X-Forwarded-Host" := HStr "strapi" ]}.

(** Lines 113-127: the headers [fetch] is given. *)
Definition requestHeaders (tok : option string) (options : Options)
  : gmap string HeaderValue :=
  let headers1 :=
    match headers options with
    | Some hs => hs
    | None => assign contentTypeJson [headers options; Some forwardedHost]
    end in
  if truthyStr tok
  then assign {[ "Authorization" := HStr ("Bearer " +:+ template tok) ]}
              [Some headers1]
  else headers1.

(** Lines 130-135: the URL [fetch] is given. *)
Definition requestURL (url : string) (options : Options) : string :=
  let url1 := if startsWithSlash url then backendURL h +:+ url else url in
  match params options with
  | Some ps => url1 +:+ "?" +:+ formatQueryParams ps
  | None => url1
  end.

Definition bodyTruthy (b : Body) : bool :=
  match b with
  | BJson j => truthy j
  | BForm _ => true
  end.

(** [JSON.stringify(options.body)]; a [FormData] has no enumerable
    property of its own. *)
Definition stringifyBody (b : Body) : string :=
  match b with
  | BJson j => JSON_stringify h j
  | BForm _ => "{}"
  end.

(** The multipart branch. Only a [FormData] and an array have [entries];
    the entries of an array of JSON values hold no [File], so that no
    field is visited. *)
Definition multipart (rev : Revision) (b : Body) : M (Try Body) :=
  match b with
  | BForm fd =>
      match rev with
      | Part000 => ret (Ok (BForm (appendCaptions fd)))
      | HelperPlugin =>
          let b' := BForm (collectCaptions fd) in
          consoleLog b' ;;; ret (Ok b')
      end
  | BJson (JArr _) =>
      match rev with
      | Part000 => ret (Ok b)
      | HelperPlugin => consoleLog b ;;; ret (Ok b)
      end
  | BJson _ => ret (Raise (TypeError "options.body.entries is not a function"))
  end.

(** Lines 138-171 (138-164 in [part_000]). *)
Definition requestBody (rev : Revision) (b : option Body) (stringify : bool)
  : M (Try (option Body)) :=
  match b with
  | Some b =>
      if bodyTruthy b && stringify
      then ret (Ok (Some (BJson (JStr (stringifyBody b)))))
      else if bodyTruthy b
      then t <- multipart rev b ;;
           ret (match t with
                | Ok b' => Ok (Some b')
                | Raise e => Raise e
                end)
      else ret (Ok (Some b))
  | None => ret (Ok None)
  end.

(** The [options] object once [headers] and [body] are rewritten. *)
Definition requestOptions (headers' : gmap string HeaderValue)
    (body' : option Body) (options : Options) : Options :=
  {| method := method options; mode := mode options;
     headers := Some headers'; body := body'; params := params options |}.

(** Lines 181-192: the chain
    [.then(checkStatus).then(parseJSON).then(response => ...)] hung on
    the promise [fetch] returned. *)
Definition respond (p : Promise Response)
    (shouldWatchServerRestart : bool) (fuel : nat) : M (Promise Value) :=
  p <- andThen p (fun response => checkStatus response true) ;;
  p <- andThen p (fun response => ret (parseJSON response)) ;;
  andThen p (fun response =>
    if shouldWatchServerRestart
    then lockApp ;;;
         w <- serverRestartWatcher fuel response ;;
         ret (ReturnPromise w)
    else ret (Return response)).

Definition request (rev : Revision) (url : string) (options : Options)
    (shouldWatchServerRestart stringify : bool) (fuel : nat)
  : M (Completion Value) :=
  tok <- getToken ;;
  let headers' := requestHeaders tok options in
  let url' := requestURL url options in
  t <- requestBody rev (body options) stringify ;;
  match t with
  | Raise e => ret (Throw e)
  | Ok body' =>
      p <- fetch url' (requestOptions headers' body' options) ;;
      p <- respond p shouldWatchServerRestart fuel ;;
      ret (ReturnPromise p)
  end.

End Program.

(** ** Sample inputs *)

Definition st0 (tok : option string) : State :=
  {| token := tok; location := None; locked := false; fetches := 0;
     trace := [] |}.

Definition noOptions : Options :=
  {| method := None; mode := None; headers := None; body := None;
     params := None |}.

Definition mkResponse (code : Z) (text : string) (j : option Settlement)
  : Response :=
  {| status := code; statusText := text; json := j; payload := None |}.

(** A host whose [n]-th fetch settles as the [n]-th entry of [script],
    and fails once the script is over. *)
Definition hostScript (script : list FetchResult) : Host :=
  {| backendURL := "http://localhost:1337"; remoteURL := "/admin";
     net := fun n _ _ => nth n script (FReject "Failed to fetch");
     JSON_stringify := stringifyJson |}.

Definition notFound : Response :=
  mkResponse 404 "Not Found"
    (Some (Delivers (JObj [("message", JStr "Not Found")]))).

Definition noContent : Response :=
  mkResponse 204 "No Content" (Some (Fails "Unexpected end of JSON input")).

Definition badGateway : Response :=
  mkResponse 502 "Bad Gateway" (Some (Fails "Unexpected token < in JSON")).

Definition unauthorized : Response :=
  mkResponse 401 "Unauthorized"
    (Some (Delivers (JObj [("message", JStr "Invalid token.")]))).

Definition okEmpty : Response :=
  mkResponse 200 "OK" (Some (Delivers (JObj []))).

Definition mocked : Response := mkResponse 500 "Internal Server Error" None.

Definition cat : File := {| fileName := "cat.png"; caption := Some "A cat" |}.

Definition dog : File := {| fileName := "dog.png"; caption := None |}.

Definition upload : FormData :=
  [("title", FString "Pets"); ("media", FFile cat); ("media", FFile dog)].

Definition uploadWithCaptionsField : FormData :=
  [("media", FFile cat); ("mediaCaptions", FString "typed by hand")].

(** ** The state after the steps of a run *)

(** After [fetch(url, opts)]. *)
Definition fetched (url : string) (opts : Options) (st : State) : State :=
  {| token := token st; location := location st; locked := locked st;
     fetches := S (fetches st); trace := trace st ++ [EFetch url opts] |}.

(** After the revalidation found the original response still 401: the
    call to the current-user endpoint, the navigation to the login page
    and the clearing of the stored state. *)
Definition loggedOut (h : Host) (st : State) : State :=
  {| token := None; location := Some (remoteURL h +:+ loginPath);
     locked := locked st; fetches := S (fetches st);
     trace := trace st ++
              [EFetch (backendURL h +:+ "/user/me") (userMeOptions (token st));
               ENavigate (remoteURL h +:+ loginPath);
               EClearAppStorage] |}.

Definition inRange (r : Response) : bool :=
  (200 <=? status r) && (status r <? 300).

(** The 401-with-token branch of [checkStatus]. *)
Definition revalidates (r : Response) (st : State) (checkToken : bool) : bool :=
  (status r =? 401) && truthyStr (token st) && checkToken.

(** The error the last statement of [checkStatus] ends with. *)
Definition failure (r : Response) : Error :=
  match json r with
  | Some (Delivers b) => HttpError (statusText r) (setPayload r b)
  | Some (Fails reason) => External reason
  | None => TypeError "parseJSON(...).then is not a function"
  end.

Definition healthURL (h : Host) : string := backendURL h +:+ "/_health".

(** [k] failed polls of the health endpoint, each followed by the wait. *)
Fixpoint failedPolls (h : Host) (k : nat) : list Event :=
  match k with
  | O => []
  | S k' => EFetch (healthURL h) healthOptions :: ESetTimeout 100
            :: failedPolls h k'
  end.

(** The URL and options of the fetch [request] issues, given the body the
    body step produced. *)
Definition dispatchURL (h : Host) (url : string) (options : Options) : string :=
  requestURL h url options.

Definition dispatchOptions (st : State) (options : Options)
    (body' : option Body) : Options :=
  requestOptions (requestHeaders (token st) options) body' options.

(** The request is dispatched with body [body'], and its fetch is
    fulfilled with [r]. *)
Definition receives (h : Host) (rev : Revision) (url : string)
    (options : Options) (stringify : bool) (st : State)
    (body' : option Body) (r : Response) : Prop :=
  fst (requestBody h rev (body options) stringify st) = Ok body' /\
  net h (fetches st) (dispatchURL h url options)
      (dispatchOptions st options body') = FResolve r.

(** The state once the fetch of [request] is issued. *)
Definition dispatched (h : Host) (rev : Revision) (url : string)
    (options : Options) (stringify : bool) (st : State)
    (body' : option Body) : State :=
  fetched (dispatchURL h url options) (dispatchOptions st options body')
          (snd (requestBody h rev (body options) stringify st)).

Definition isLock (e : Event) : bool :=
  match e with ELockApp => true | _ => false end.

Definition isUnlock (e : Event) : bool :=
  match e with EUnlockApp => true | _ => false end.

Definition isConsoleLog (e : Event) : bool :=
  match e with EConsoleLog _ => true | _ => false end.

Definition isLogout (e : Event) : bool :=
  match e with ENavigate _ | EClearAppStorage => true | _ => false end.

(** A host whose first fetch delivers the response and whose call to the
    current-user endpoint then fails at the network. *)
Definition hostOffline : Host :=
  hostScript [FResolve unauthorized; FReject "Failed to fetch"].

(** A host that answers the request and the call to the current-user
    endpoint with the same 401. *)
Definition hostExpired : Host :=
  hostScript [FResolve unauthorized; FResolve unauthorized].

(** A 401 whose body is an HTML page, as a proxy in front of the server
    answers. *)
Definition unauthorizedPage : Response :=
  mkResponse 401 "Unauthorized" (Some (Fails "Unexpected token < in JSON")).

(** A host that answers the request with that page and the call to the
    current-user endpoint with a 200. *)
Definition hostProxied : Host :=
  hostScript [FResolve unauthorizedPage; FResolve okEmpty].

(** A host that answers the request, restarts, fails two health checks
    and then answers the third with an opaque response. *)
Definition hostRestarting : Host :=
  hostScript [FResolve okEmpty; FReject "Failed to fetch";
              FReject "Failed to fetch"; FResolve (mkResponse 0 "" None)].

(** Options whose caller supplies headers of its own. *)
Definition callerOptions : Options :=
  {| method := Some "POST"; mode := None;
     headers := Some {[ "Authorization" := HStr "Basic YWRtaW46YWRtaW4=";
                        "Accept" := HStr "text/plain" ]};
     body := None;
     params := Some [("_q", "a b&c"); ("sort", "name:asc")] |}.

(** ** Reading a query string back *)

(** [s.split(sep)] for a separator of one character. *)
Fixpoint splitOn (sep : ascii) (s : string) : list string :=
  match s with
  | "" => [""]
  | String c s' =>
      if Ascii.eqb c sep then "" :: splitOn sep s'
      else match splitOn sep s' with
           | x :: xs => String c x :: xs
           | [] => [String c ""]
           end
  end.

Fixpoint occurs (c : ascii) (s : string) : bool :=
  match s with
  | "" => false
  | String c' s' => Ascii.eqb c' c || occurs c s'
  end.

(** The [key=value] pair of an entry of [params]. *)
Definition pairOf (kv : string * string) : string :=
  encodeURIComponent (fst kv) +:+ "=" +:+ encodeURIComponent (snd kv).

(** ** The captions of a multipart body *)

Fixpoint filesIn (l : list FormValue) : list File :=
  match l with
  | [] => []
  | FFile f :: l' => f :: filesIn l'
  | FString _ :: l' => filesIn l'
  end.

(** The [File] entries of [field]. *)
Definition filesOf (body : FormData) (field : string) : list File :=
  filesIn (getAll body field).

(** The entry [append] adds for a file of [field]. *)
Definition captionEntry (field : string) (f : File) : string * FormValue :=
  (field +:+ "Captions", FString (toUSVString (caption f))).

Definition captionsOf (body : FormData) (field : string) : FormData :=
  map (captionEntry field) (filesOf body field).

(** ** Reading an encoding back *)

Definition hexValue (c : ascii) : option N :=
  let n := N_of_ascii c in
  if ((48 <=? n) && (n <=? 57))%N then Some (n - 48)%N
  else if ((65 <=? n) && (n <=? 70))%N then Some (n - 55)%N
  else if ((97 <=? n) && (n <=? 102))%N then Some (n - 87)%N
  else None.

(** [decodeURIComponent], byte by byte: [%XX] is the byte [XX], any
    other byte is itself, and a [%] that two hexadecimal digits do not
    follow is an error. *)
Fixpoint decodeURIComponent (s : string) : option string :=
  match s with
  | "" => Some ""
  | String c rest =>
      if Ascii.eqb c "%" then
        match rest with
        | String a (String b rest') =>
            match hexValue a, hexValue b with
            | Some x, Some y =>
                option_map (String (ascii_of_N (16 * x + y)))
                           (decodeURIComponent rest')
            | _, _ => None
            end
        | _ => None
        end
      else option_map (String c) (decodeURIComponent rest)
  end.

(** A [key=value] pair read back. *)
Definition parsePair (s : string) : option (string * string) :=
  match splitOn "=" s with
  | [k; v] =>
      match decodeURIComponent k, decodeURIComponent v with
      | Some k', Some v' => Some (k', v')
      | _, _ => None
      end
  | _ => None
  end.

Fixpoint parsePairs (l : list string) : option Params :=
  match l with
  | [] => Some []
  | s :: l' =>
      match parsePair s, parsePairs l' with
      | Some kv, Some ps => Some (kv :: ps)
      | _, _ => None
      end
  end.

(** A query string read back, the way a server splits it; the empty
    string holds no pair. *)
Definition parseQuery (q : string) : option Params :=
  if String.eqb q "" then Some [] else parsePairs (splitOn "&" q).

Fixpoint allChars (p : ascii -> bool) (s : string) : bool :=
  match s with
  | "" => true
  | String c s' => p c && allChars p s'
  end.

(** The characters a query string is made of. *)
Definition isQueryChar (c : ascii) : bool :=
  isUnreserved c || existsb (Ascii.eqb c) ["%"; "&"; "="]%char.

Definition isFetch (e : Event) : bool :=
  match e with EFetch _ _ => true | _ => false end.

(** The events of the restart watch. *)
Definition isWatch (e : Event) : bool :=
  match e with
  | ELockApp | EUnlockApp | ESetTimeout _ => true
  | _ => false
  end.

(** The number of [File] entries of a body. *)
Definition countFiles (body : FormData) : nat :=
  length (List.filter (fun e => isFile (snd e)) body).

(** A host whose network never answers. *)
Definition hostDown : Host := hostScript [].

(** A plain object given as body. *)
Definition jsonBody : Json := JObj [("a", JNum 1)].

(** ** The file input widget ([InputFile], [src/unnamed/part_001])

    The handlers of the component, as functions of the props and the
    state the component has when the handler starts. A handler returns
    the calls it makes, in order, and the error it throws if it does;
    React applies the [setState] calls once the handler is over, so that
    [this.state] is the same all through it. *)

Module InputFile.

(** [props.value]: a string, a plain object or an array (its
    [propTypes]). The entries of objects and arrays are files, or the
    records that stand for uploaded files, with their [caption]. *)
Inductive Value :=
| VString (s : string)
| VObject (o : list (string * File))
| VArray (l : list File).

Record Props := {
  multiple : bool;
  name : string;
  value : Value
}.

Record State := {
  didDeleteFile : bool;
  isUploading : bool;
  position : nat;
  captions : list (option string)
}.

(** The argument of a [setState] call. *)
Inductive Patch :=
| SetDidDeleteFile (b : bool)
| SetIsUploading (b : bool)
| SetPosition (n : nat)
| SetCaptions (l : list (option string)).

(** The calls a handler makes. [OnChange n v] is
    [props.onChange({ target: { name: n, type: 'file', value: v } })];
    the label of [SetLabel] is [false] ([None]) or a number. *)
Inductive Call :=
| PreventDefault
| StopPropagation
| Click
| ResetInput
| SetState (p : Patch)
| OnChange (n : string) (v : Value)
| SetLabel (label : option nat).

Definition Run : Type := list Call * option Error.

Definition applyPatch (st : State) (p : Patch) : State :=
  match p with
  | SetDidDeleteFile b =>
      {| didDeleteFile := b; isUploading := isUploading st;
         position := position st; captions := captions st |}
  | SetIsUploading b =>
      {| didDeleteFile := didDeleteFile st; isUploading := b;
         position := position st; captions := captions st |}
  | SetPosition n =>
      {| didDeleteFile := didDeleteFile st; isUploading := isUploading st;
         position := n; captions := captions st |}
  | SetCaptions l =>
      {| didDeleteFile := didDeleteFile st; isUploading := isUploading st;
         position := position st; captions := l |}
  end.

(** The state once React has applied the [setState] calls of a run. *)
Definition stateAfter (st : State) (calls : list Call) : State :=
  fold_left (fun s c => match c with SetState p => applyPatch s p | _ => s end)
            calls st.

(** [captions[i]]: [undefined] for a hole or past the end. *)
Definition captionAt (l : list (option string)) (i : nat) : option string :=
  mjoin (l !! i).

(** [file.caption = c] *)
Definition withCaption (f : File) (c : option string) : File :=
  {| fileName := fileName f; caption := c |}.

(** [captions[i] = c], which fills with holes up to [i]. *)
Definition assignAt (i : nat) (c : string) (l : list (option string))
  : list (option string) :=
  if (i <? length l)%nat then <[i := Some c]> l
  else l ++ replicate (i - length l) None ++ [Some c].

(** The name of the property [o[i]] reads. *)
Definition keyOf (i : nat) : string :=
  NilEmpty.string_of_uint (Nat.to_uint i).

Fixpoint lookupKey (o : list (string * File)) (k : string) : option File :=
  match o with
  | [] => None
  | (k', f) :: o' => if String.eqb k' k then Some f else lookupKey o' k
  end.

Fixpoint updateKey (o : list (string * File)) (k : string) (f : File)
  : list (string * File) :=
  match o with
  | [] => []
  | (k', f') :: o' =>
      if String.eqb k' k then (k', f) :: o' else (k', f') :: updateKey o' k f
  end.

(** [addFilesToProps(files)]. A string or a plain object has no [push]:
    in multiple mode the reduction throws at the first file. *)
Definition addFilesToProps (props : Props) (st : State) (files : list File)
  : Run :=
  match files with
  | [] => ([], None)
  | first :: _ =>
      let finish (v : Value) : Run :=
        ([ResetInput; SetState (SetIsUploading (negb (isUploading st)));
          OnChange (name props) v], None) in
      if multiple props then
        match value props with
        | VArray l =>
            finish (VArray (l ++ imap (fun i f =>
                                         withCaption f (captionAt (captions st) i))
                                      files))
        | _ => ([], Some (TypeError "acc.push is not a function"))
        end
      else
        finish (VObject [("0", withCaption first (captionAt (captions st) 0))])
  end.

Definition onDrop (props : Props) (st : State) (files : list File) : Run :=
  let (calls, e) := addFilesToProps props st files in
  (PreventDefault :: calls, e).

Definition handleChange (props : Props) (st : State) (files : list File)
  : Run :=
  addFilesToProps props st files.

Definition handleClick : Run := ([PreventDefault; StopPropagation; Click], None).

(** [updateFilePosition(newPosition, size)]; [size] is [None] when it is
    [undefined]. *)
Definition updateFilePosition (newPosition : nat) (size : option nat)
  : list Call :=
  let label :=
    match size with
    | Some O => None
    | _ => Some (newPosition + 1)%nat
    end in
  [SetLabel label; SetState (SetPosition newPosition)].

(** The [length] of a JavaScript string, counted in UTF-16 code units,
    of a text held here as its UTF-8 bytes: a continuation byte
    (10xxxxxx) adds nothing to the unit its lead byte opened, and the lead
    byte of a four-byte sequence (11110xxx) opens a surrogate pair. *)
Definition utf16Units (c : ascii) : nat :=
  let n := N_of_ascii c in
  if (n <? 128)%N then 1%nat
  else if (n <? 192)%N then 0%nat
  else if (n <? 240)%N then 1%nat
  else 2%nat.

Fixpoint utf16Length (s : string) : nat :=
  match s with
  | "" => 0%nat
  | String c s' => (utf16Units c + utf16Length s')%nat
  end.

(** The default of [size], [this.props.value.length]; an object of files
    has no such number. *)
Definition lengthOf (v : Value) : option nat :=
  match v with
  | VString s => Some (utf16Length s)
  | VArray l => Some (length l)
  | VObject _ => None
  end.

(** [handleFileDelete(e)]. [splice] returns what it removed: the
    captions kept are those of the position deleted. *)
Definition handleFileDelete (props : Props) (st : State) : Run :=
  if multiple props then
    match value props with
    | VArray l =>
        let value' := delete (position st) l in
        let removed :=
          match captions st !! position st with
          | Some c => [c]
          | None => []
          end in
        let newPosition :=
          match length value' with
          | O => O
          | S n => n
          end in
        ([PreventDefault; StopPropagation;
          SetState (SetCaptions removed);
          OnChange (name props)
                   match value' with
                   | [] => VString ""
                   | _ => VArray value'
                   end]
         ++ updateFilePosition newPosition (Some (length value'))
         ++ [SetState (SetDidDeleteFile (negb (didDeleteFile st)))],
         None)
    | _ =>
        ([PreventDefault; StopPropagation],
         Some (TypeError "value.splice is not a function"))
    end
  else
    ([PreventDefault; StopPropagation;
      OnChange (name props) (VString "");
      SetState (SetDidDeleteFile (negb (didDeleteFile st)))],
     None).

Definition isVisibleDetails (props : Props) : bool :=
  match value props with
  | VString s => negb (String.eqb s "")
  | VArray l => negb (length l =? 0)%nat
  | VObject o => negb (length o =? 0)%nat
  end.

(** [addCaptionToValue(e)] with [e.target.value = typed]. A character of
    a string takes no property: the assignment throws in strict code. The
    characters of a string value are its code units. *)
Definition addCaptionToValue (props : Props) (st : State) (typed : string)
  : Run :=
  let stored := [SetState (SetCaptions (assignAt (position st) typed
                                                 (captions st)))] in
  match value props with
  | VArray l =>
      match l !! position st with
      | Some f =>
          (stored ++
           [OnChange (name props)
              (VArray (<[position st := withCaption f (Some typed)]> l))],
           None)
      | None => (stored, None)
      end
  | VObject o =>
      match lookupKey o (keyOf (position st)) with
      | Some f =>
          (stored ++
           [OnChange (name props)
              (VObject (updateKey o (keyOf (position st))
                                  (withCaption f (Some typed))))],
           None)
      | None => (stored, None)
      end
  | VString s =>
      if (position st <? utf16Length s)%nat
      then (stored,
            Some (TypeError "Cannot create property 'caption' on string"))
      else (stored, None)
  end.

(** The state of a fresh component. *)
Definition initial : State :=
  {| didDeleteFile := false; isUploading := false; position := 0;
     captions := [] |}.

(** The props the parent gives back once it has stored the value of an
    [onChange]. *)
Definition withValue (props : Props) (v : Value) : Props :=
  {| multiple := multiple props; name := name props; value := v |}.

(** The value of the last [onChange] of a run. *)
Definition sent (calls : list Call) : option Value :=
  fold_left (fun acc c => match c with OnChange _ v => Some v | _ => acc end)
            calls None.

End InputFile.

(** * Properties *)

(** ** checkStatus *)

Section CheckStatus.

Variable h : Host.

Ltac run :=
  unfold checkStatus, checkStatusUnchecked, checkTokenValidity,
    checkStatusWith, checkTokenValidityWith, andThen, fetch, navigate,
    clearAppStorage, getToken, bind, ret, inRange, revalidates in *.

Lemma checkStatus_in_range (r : Response) (checkToken : bool) (st : State) :
  inRange r = true ->
  checkStatus h r checkToken st = (Return (Some r), st).
Proof. intros H. run. now rewrite H. Qed.

Lemma checkStatus_error (r : Response) (checkToken : bool) (st : State) :
  inRange r = false ->
  revalidates r st checkToken = false ->
  checkStatus h r checkToken st = (throwWithPayload r, st).
Proof. intros H1 H2. run. now rewrite H1, H2. Qed.

Lemma checkStatus_unchecked (r : Response) (st : State) :
  checkStatus h r false st = checkStatusUnchecked r st.
Proof.
  run. destruct (_ && _)%bool; [reflexivity|].
  now rewrite andb_false_r.
Qed.

Lemma checkStatusUnchecked_error (r : Response) (st : State) :
  inRange r = false ->
  checkStatusUnchecked r st = (throwWithPayload r, st).
Proof.
  intros H. rewrite <- checkStatus_unchecked.
  apply checkStatus_error; [assumption|].
  unfold revalidates. apply andb_false_r.
Qed.

Lemma status_401_outside (r : Response) : status r = 401 -> inRange r = false.
Proof. intros H. unfold inRange. now rewrite H. Qed.

Lemma settle_throwWithPayload (r : Response) :
  settle (throwWithPayload r) = Rejected (failure r).
Proof.
  unfold throwWithPayload, failure.
  destruct (json r) as [[b|e]|]; reflexivity.
Qed.

Lemma checkStatus_revalidate (r : Response) (st : State) :
  status r = 401 ->
  truthyStr (token st) = true ->
  checkStatus h r true st =
  match net h (fetches st) (backendURL h +:+ "/user/me")
            (userMeOptions (token st)) with
  | FResolve _ => (ReturnPromise (Rejected (failure r)), loggedOut h st)
  | FReject reason =>
      (ReturnPromise (Rejected (External reason)),
       fetched (backendURL h +:+ "/user/me") (userMeOptions (token st)) st)
  end.
Proof.
  intros Hs Ht. run. rewrite Hs. cbn. rewrite Ht. cbn. rewrite Ht. cbn.
  destruct (net h _ _ _) as [u|reason]; cbn; [|reflexivity].
  rewrite checkStatusUnchecked_error by now apply status_401_outside.
  rewrite settle_throwWithPayload. unfold loggedOut. rewrite <- !app_assoc. reflexivity.
Qed.

End CheckStatus.

(** ** The response chain *)

Section Respond.

Variable h : Host.

Lemma respond_rejected (e : Error) (watch : bool) (fuel : nat) (st : State) :
  respond h (Rejected e) watch fuel st = (Rejected e, st).
Proof. reflexivity. Qed.

Lemma respond_error (r : Response) (watch : bool) (fuel : nat) (st : State) :
  inRange r = false ->
  revalidates r st true = false ->
  respond h (Fulfilled r) watch fuel st = (Rejected (failure r), st).
Proof.
  intros H1 H2. unfold respond, bind. cbn [andThen]. unfold bind.
  rewrite checkStatus_error by assumption.
  unfold ret. rewrite settle_throwWithPayload. reflexivity.
Qed.

Lemma respond_revalidate (r : Response) (watch : bool) (fuel : nat)
    (st : State) :
  status r = 401 ->
  truthyStr (token st) = true ->
  respond h (Fulfilled r) watch fuel st =
  match net h (fetches st) (backendURL h +:+ "/user/me")
            (userMeOptions (token st)) with
  | FResolve _ => (Rejected (failure r), loggedOut h st)
  | FReject reason =>
      (Rejected (External reason),
       fetched (backendURL h +:+ "/user/me") (userMeOptions (token st)) st)
  end.
Proof.
  intros Hs Ht. unfold respond, bind. cbn [andThen]. unfold bind.
  rewrite checkStatus_revalidate by assumption.
  destruct (net h _ _ _); reflexivity.
Qed.

Lemma respond_in_range (r : Response) (watch : bool) (fuel : nat)
    (st : State) :
  inRange r = true ->
  respond h (Fulfilled r) watch fuel st =
  match settle (parseJSON (Some r)) with
  | Fulfilled v =>
      if watch
      then let (w, st') := serverRestartWatcher h fuel v (snd (lockApp st)) in
           (w, st')
      else (Fulfilled v, st)
  | Rejected e => (Rejected e, st)
  | Pending => (Pending, st)
  end.
Proof.
  intros H. unfold respond, bind. cbn [andThen]. unfold bind.
  rewrite checkStatus_in_range by assumption.
  cbv [parseJSON settle ofSettlement andThen bind ret lockApp snd].
  destruct (json r) as [[b|reason]|], watch; try reflexivity;
    destruct (serverRestartWatcher _ _ _ _); reflexivity.
Qed.

(** *** The restart watcher *)

Lemma watcher_resolves (v : Value) (hr : Response) (fuel : nat) (st : State) :
  net h (fetches st) (healthURL h) healthOptions = FResolve hr ->
  serverRestartWatcher h (S fuel) v st =
  (Fulfilled v,
   {| token := token st; location := location st; locked := false;
      fetches := S (fetches st);
      trace := trace st ++ [EFetch (healthURL h) healthOptions; EUnlockApp] |}).
Proof.
  intros H. simpl. unfold bind, fetch, unlockApp, ret. fold (healthURL h).
  rewrite H. simpl. rewrite <- app_assoc. reflexivity.
Qed.

Lemma watcher_retries (v : Value) (reason : string) (fuel : nat) (st : State) :
  net h (fetches st) (healthURL h) healthOptions = FReject reason ->
  serverRestartWatcher h (S fuel) v st =
  serverRestartWatcher h fuel v
    {| token := token st; location := location st; locked := locked st;
       fetches := S (fetches st);
       trace := trace st ++ [EFetch (healthURL h) healthOptions;
                             ESetTimeout 100] |}.
Proof.
  intros H. simpl. unfold bind, fetch, setTimeout, emit. fold (healthURL h).
  rewrite H. simpl. rewrite <- app_assoc. reflexivity.
Qed.

Lemma watcher_polls (v : Value) (hr : Response) (k : nat) :
  forall (fuel : nat) (st : State),
  (forall i, (i < k)%nat ->
     exists reason,
       net h (fetches st + i) (healthURL h) healthOptions = FReject reason) ->
  net h (fetches st + k) (healthURL h) healthOptions = FResolve hr ->
  (k < fuel)%nat ->
  serverRestartWatcher h fuel v st =
  (Fulfilled v,
   {| token := token st; location := location st; locked := false;
      fetches := fetches st + S k;
      trace := trace st ++ failedPolls h k ++
               [EFetch (healthURL h) healthOptions; EUnlockApp] |}).
Proof.
  induction k as [|k IH]; intros fuel st Hfail Hok Hfuel.
  - destruct fuel as [|fuel]; [lia|].
    rewrite Nat.add_0_r in Hok. rewrite (watcher_resolves v hr) by assumption.
    simpl. now rewrite Nat.add_1_r.
  - destruct fuel as [|fuel]; [lia|].
    destruct (Hfail O ltac:(lia)) as [reason Hr].
    rewrite Nat.add_0_r in Hr.
    rewrite (watcher_retries v reason) by assumption.
    rewrite IH; simpl.
    + rewrite <- app_assoc. simpl. f_equal. f_equal. lia.
    + intros i Hi. destruct (Hfail (S i) ltac:(lia)) as [e He].
      exists e. now rewrite <- Nat.add_succ_r.
    + now rewrite <- Nat.add_succ_r.
    + lia.
Qed.

Lemma watcher_never_rejects (v : Value) (fuel : nat) :
  forall (st : State) (e : Error),
  fst (serverRestartWatcher h fuel v st) <> Rejected e.
Proof.
  induction fuel as [|fuel IH]; intros st e; [discriminate|].
  destruct (net h (fetches st) (healthURL h) healthOptions) as [hr|reason] eqn:E.
  - rewrite (watcher_resolves v hr) by assumption. discriminate.
  - rewrite (watcher_retries v reason) by assumption. apply IH.
Qed.

End Respond.

(** ** request *)

Section Request.

Variable h : Host.

Lemma requestBody_state (rev : Revision) (b : option Body) (stringify : bool)
    (st : State) :
  let st1 := snd (requestBody h rev b stringify st) in
  token st1 = token st /\ location st1 = location st /\
  locked st1 = locked st /\ fetches st1 = fetches st /\
  exists logs,
    forallb isConsoleLog logs = true /\ trace st1 = trace st ++ logs.
Proof.
  assert (Hsame : forall st' : State,
             st' = st ->
             token st' = token st /\ location st' = location st /\
             locked st' = locked st /\ fetches st' = fetches st /\
             exists logs,
               forallb isConsoleLog logs = true /\
               trace st' = trace st ++ logs).
  { intros st' ->. repeat split. exists []. now rewrite app_nil_r. }
  destruct b as [b|]; simpl; [|now apply Hsame].
  unfold requestBody.
  destruct (bodyTruthy b && stringify)%bool; [now apply Hsame|].
  destruct (bodyTruthy b); [|now apply Hsame].
  unfold bind, multipart, consoleLog, emit, ret.
  destruct b as [[| | | |l|]|fd], rev; simpl;
    try (now apply Hsame);
    (repeat (split; [reflexivity|]));
    eexists; (split; [|reflexivity]); reflexivity.
Qed.

Lemma request_throws (rev : Revision) (url : string) (options : Options)
    (watch stringify : bool) (fuel : nat) (st : State) (e : Error) :
  fst (requestBody h rev (body options) stringify st) = Raise e ->
  request h rev url options watch stringify fuel st =
  (Throw e, snd (requestBody h rev (body options) stringify st)).
Proof.
  intros H. unfold request, bind, getToken.
  destruct (requestBody h rev (body options) stringify st) as [t st1].
  simpl in *. now subst t.
Qed.

Lemma request_dispatch (rev : Revision) (url : string) (options : Options)
    (watch stringify : bool) (fuel : nat) (st : State) (body' : option Body) :
  fst (requestBody h rev (body options) stringify st) = Ok body' ->
  request h rev url options watch stringify fuel st =
  let (p, st') :=
    respond h
      match net h (fetches st) (dispatchURL h url options)
                (dispatchOptions st options body') with
      | FResolve r => Fulfilled r
      | FReject reason => Rejected (External reason)
      end
      watch fuel (dispatched h rev url options stringify st body') in
  (ReturnPromise p, st').
Proof.
  intros H. unfold request, bind, getToken, dispatched.
  pose proof (requestBody_state rev (body options) stringify st) as Hst.
  destruct (requestBody h rev (body options) stringify st) as [t st1].
  simpl in *. subst t.
  destruct Hst as (Htok & _ & _ & Hn & _).
  unfold fetch, fetched, dispatchURL, dispatchOptions. rewrite Hn.
  reflexivity.
Qed.

Lemma watcher_extends (v : Value) (fuel : nat) :
  forall st : State,
  exists rest, trace (snd (serverRestartWatcher h fuel v st)) = trace st ++ rest.
Proof.
  induction fuel as [|fuel IH]; intros st.
  - exists []. simpl. now rewrite app_nil_r.
  - destruct (net h (fetches st) (healthURL h) healthOptions)
      as [hr|reason] eqn:E.
    + rewrite (watcher_resolves h v hr) by assumption. simpl. eauto.
    + rewrite (watcher_retries h v reason) by assumption.
      destruct (IH {| token := token st; location := location st;
                      locked := locked st; fetches := S (fetches st);
                      trace := trace st ++
                               [EFetch (healthURL h) healthOptions;
                                ESetTimeout 100] |}) as [rest Hrest].
      rewrite Hrest. simpl. rewrite <- app_assoc. eauto.
Qed.

Lemma respond_extends (p : Promise Response) (watch : bool) (fuel : nat)
    (st : State) :
  exists rest, trace (snd (respond h p watch fuel st)) = trace st ++ rest.
Proof.
  assert (Hnil : exists rest, trace st = trace st ++ rest).
  { exists []. now rewrite app_nil_r. }
  destruct p as [|r|e]; try exact Hnil.
  destruct (inRange r) eqn:Hin.
  - rewrite respond_in_range by assumption.
    destruct (settle (parseJSON (Some r))) as [|v|e]; try exact Hnil.
    destruct watch; [|exact Hnil].
    destruct (watcher_extends v fuel (snd (lockApp st))) as [rest Hrest].
    destruct (serverRestartWatcher h fuel v (snd (lockApp st))) as [w st'].
    simpl in *. rewrite Hrest, <- app_assoc. eauto.
  - destruct (revalidates r st true) eqn:Hrev.
    + unfold revalidates in Hrev.
      apply andb_prop in Hrev as [Hrev _].
      apply andb_prop in Hrev as [Hs Ht].
      apply Z.eqb_eq in Hs.
      rewrite respond_revalidate by assumption.
      destruct (net h (fetches st) _ _); simpl; eauto.
    + rewrite respond_error by assumption. exact Hnil.
Qed.

Lemma request_first_fetch (rev : Revision) (url : string) (options : Options)
    (watch stringify : bool) (fuel : nat) (st : State) (body' : option Body) :
  fst (requestBody h rev (body options) stringify st) = Ok body' ->
  exists logs rest,
    forallb isConsoleLog logs = true /\
    trace (snd (request h rev url options watch stringify fuel st)) =
    trace st ++ logs ++
    EFetch (dispatchURL h url options) (dispatchOptions st options body')
    :: rest.
Proof.
  intros H. rewrite (request_dispatch _ _ _ _ _ _ _ _ H).
  destruct (requestBody_state rev (body options) stringify st)
    as (_ & _ & _ & _ & logs & Hlogs & Htrace).
  destruct (respond_extends
              match net h (fetches st) (dispatchURL h url options)
                        (dispatchOptions st options body') with
              | FResolve r => Fulfilled r
              | FReject reason => Rejected (External reason)
              end watch fuel
              (dispatched h rev url options stringify st body'))
    as [rest Hrest].
  destruct (respond h _ watch fuel _) as [p st'].
  exists logs, rest. split; [assumption|].
  cbn [snd] in *. rewrite Hrest. unfold dispatched, fetched. cbn [trace].
  rewrite Htrace, <- !app_assoc. reflexivity.
Qed.

Lemma dispatched_token (rev : Revision) (url : string) (options : Options)
    (stringify : bool) (st : State) (body' : option Body) :
  token (dispatched h rev url options stringify st body') = token st.
Proof.
  unfold dispatched, fetched. simpl.
  apply (requestBody_state rev (body options) stringify st).
Qed.

Lemma dispatched_fetches (rev : Revision) (url : string) (options : Options)
    (stringify : bool) (st : State) (body' : option Body) :
  fetches (dispatched h rev url options stringify st body') = S (fetches st).
Proof.
  unfold dispatched, fetched. simpl. f_equal.
  apply (requestBody_state rev (body options) stringify st).
Qed.

End Request.

Lemma inRange_true (r : Response) :
  200 <= status r < 300 -> inRange r = true.
Proof. unfold inRange. lia. Qed.

Lemma inRange_false (r : Response) :
  ~ 200 <= status r < 300 -> inRange r = false.
Proof. unfold inRange. lia. Qed.

Lemma revalidates_false (r : Response) (st : State) :
  ~ (status r = 401 /\ truthyStr (token st) = true) ->
  revalidates r st true = false.
Proof.
  unfold revalidates. intros H.
  destruct (status r =? 401) eqn:E; [|reflexivity].
  destruct (truthyStr (token st)); [|reflexivity].
  exfalso. apply H. split; [lia|reflexivity].
Qed.

(** ** Outcome by status (C1) *)

(** C1, as stated, fails on the code. A 204 response lies in [200,300),
    yet [response.json()] fails on its empty body and the failure
    rejects the promise of [request]; a 502 response with an HTML body
    lies outside, does not enter the revalidation branch, and the promise
    rejects with the parse failure, not with an error that carries
    [statusText] and the response. *)
Lemma request_parse_failure_counterexample :
  (200 <= status noContent < 300 /\
   fst (request (hostScript [FResolve noContent]) Part000 "/content-manager"
                noOptions false true 0 (st0 None))
   = ReturnPromise (Rejected (External "Unexpected end of JSON input")))
  /\
  (~ 200 <= status badGateway < 300 /\ status badGateway <> 401 /\
   fst (request (hostScript [FResolve badGateway]) Part000 "/content-manager"
                noOptions false true 0 (st0 None))
   = ReturnPromise (Rejected (External "Unexpected token < in JSON"))).
Proof.
  split; [split; [simpl; lia | reflexivity]|].
  split; [simpl; lia|]. split; [discriminate | reflexivity].
Qed.

(** C1, amended. When the fetch of [request] is fulfilled with a response
    [r]:
    - if the status of [r] is in [200,300), [checkStatus] returns [r]
      unchanged, and the promise of [request] (without the restart watch)
      settles as the JSON parse of [r] does: fulfilled with the parsed
      body, fulfilled with [r] itself when it has no [json] method,
      rejected with the parse failure when [response.json()] fails;
    - if the status is outside [200,300), [r] does not enter the
      401-with-token branch and [response.json()] delivers a body [b],
      the promise rejects with an error whose message is the status text
      of [r] and whose response has the status, the status text and the
      [json] method of [r], and [b] as its [payload]; if
      [response.json()] fails, the promise rejects with that failure. *)
Theorem request_settles_by_status (h : Host) (rev : Revision) (url : string)
    (options : Options) (stringify : bool) (st : State)
    (body' : option Body) (r : Response) :
  receives h rev url options stringify st body' r ->
  let st1 := dispatched h rev url options stringify st body' in
  (200 <= status r < 300 ->
   (forall checkToken st', checkStatus h r checkToken st' = (Return (Some r), st'))
   /\
   forall fuel,
     request h rev url options false stringify fuel st =
     (ReturnPromise
        match json r with
        | Some (Delivers b) => Fulfilled (VJson b)
        | Some (Fails reason) => Rejected (External reason)
        | None => Fulfilled (VResponse r)
        end, st1))
  /\
  (~ 200 <= status r < 300 ->
   ~ (status r = 401 /\ truthyStr (token st) = true) ->
   forall watch fuel,
     (forall b, json r = Some (Delivers b) ->
        request h rev url options watch stringify fuel st =
        (ReturnPromise
           (Rejected
              (HttpError (statusText r)
                 {| status := status r; statusText := statusText r;
                    json := json r; payload := Some b |})), st1))
     /\
     (forall reason, json r = Some (Fails reason) ->
        request h rev url options watch stringify fuel st =
        (ReturnPromise (Rejected (External reason)), st1))).
Proof.
  intros [Hbody Hnet] st1. split.
  - intros Hin. apply inRange_true in Hin. split.
    + intros checkToken st'. now apply checkStatus_in_range.
    + intros fuel. rewrite (request_dispatch h _ _ _ _ _ _ _ _ Hbody), Hnet.
      rewrite respond_in_range by assumption.
      simpl. destruct (json r) as [[b|reason]|]; reflexivity.
  - intros Hout Hno watch fuel.
    apply inRange_false in Hout.
    assert (Hrev : revalidates r st1 true = false).
    { apply revalidates_false. unfold st1. now rewrite dispatched_token. }
    assert (Hrun : request h rev url options watch stringify fuel st =
                   (ReturnPromise (Rejected (failure r)), st1)).
    { rewrite (request_dispatch h _ _ _ _ _ _ _ _ Hbody), Hnet.
      now rewrite respond_error. }
    split; intros x Hx; rewrite Hrun; unfold failure; rewrite Hx;
      unfold setPayload; now rewrite ?Hx.
Qed.

Lemma request_settles_by_status_witness :
  receives (hostScript [FResolve notFound]) Part000 "/users" noOptions true
           (st0 None) None notFound
  /\ ~ 200 <= status notFound < 300
  /\ ~ (status notFound = 401 /\ truthyStr (token (st0 None)) = true)
  /\ request (hostScript [FResolve notFound]) Part000 "/users" noOptions
             false true 0 (st0 None)
     = (ReturnPromise
          (Rejected
             (HttpError "Not Found"
                {| status := 404; statusText := "Not Found";
                   json := Some (Delivers (JObj [("message", JStr "Not Found")]));
                   payload := Some (JObj [("message", JStr "Not Found")]) |})),
        dispatched (hostScript [FResolve notFound]) Part000 "/users" noOptions
                   true (st0 None) None).
Proof.
  assert (Hrec : receives (hostScript [FResolve notFound]) Part000 "/users"
                          noOptions true (st0 None) None notFound).
  { split; reflexivity. }
  assert (Hout : ~ 200 <= status notFound < 300) by (simpl; lia).
  assert (Hno : ~ (status notFound = 401 /\ truthyStr (token (st0 None)) = true)).
  { intros [H _]. discriminate H. }
  split; [exact Hrec|]. split; [exact Hout|]. split; [exact Hno|].
  exact (proj1 (proj2 (request_settles_by_status _ _ _ _ _ _ _ _ Hrec)
                  Hout Hno false 0%nat) _ eq_refl).
Defined.

(** ** A response without a [json] method (C9) *)

(** C9. For a response whose status is outside [200,300), that does not
    take the 401-with-token branch and has no [json] method, [parseJSON]
    returns the response itself, and [checkStatus], calling [.then] on
    it, throws a [TypeError]: thrown inside the [then] callback of
    [request], it rejects the promise in place of the error that carries
    the status text and the payload. The responses of the model are those
    a promise delivers, which have no [then] of their own. *)
Theorem checkStatus_without_json_throws (h : Host) (r : Response)
    (checkToken : bool) (st : State) :
  ~ 200 <= status r < 300 ->
  revalidates r st checkToken = false ->
  json r = None ->
  parseJSON (Some r) = Return (VResponse r) /\
  checkStatus h r checkToken st =
    (Throw (TypeError "parseJSON(...).then is not a function"), st) /\
  andThen (Fulfilled r) (fun response => checkStatus h response checkToken) st =
    (Rejected (TypeError "parseJSON(...).then is not a function"), st).
Proof.
  intros Hout Hrev Hjson. apply inRange_false in Hout.
  assert (Hcs : checkStatus h r checkToken st =
                (Throw (TypeError "parseJSON(...).then is not a function"), st)).
  { rewrite checkStatus_error by assumption.
    unfold throwWithPayload. now rewrite Hjson. }
  split; [|split].
  - simpl. now rewrite Hjson.
  - exact Hcs.
  - cbn [andThen]. unfold bind. now rewrite Hcs.
Qed.

Lemma checkStatus_without_json_throws_witness :
  ~ 200 <= status mocked < 300 /\
  revalidates mocked (st0 (Some "jwt")) true = false /\
  json mocked = None /\
  checkStatus (hostScript []) mocked true (st0 (Some "jwt")) =
    (Throw (TypeError "parseJSON(...).then is not a function"),
     st0 (Some "jwt")).
Proof.
  assert (Hout : ~ 200 <= status mocked < 300) by (simpl; lia).
  split; [exact Hout|]. split; [reflexivity|]. split; [reflexivity|].
  exact (proj1 (proj2 (checkStatus_without_json_throws (hostScript []) mocked
                         true (st0 (Some "jwt")) Hout eq_refl eq_refl))).
Defined.

(** ** Token revalidation (C2, C3) *)

(** C2, as stated, fails on the code. A 401 whose body does not parse
    takes the revalidation path as any other: the call to the
    current-user endpoint resolves, the browsing context is navigated to
    the login URL and the store is cleared; but [checkStatus(response,
    false)] then fails with the failure of [response.json()], and the
    promise of [request] rejects with that parse failure, not with an
    HTTP error that carries the status text and the response. *)
Lemma revalidation_parse_failure_counterexample :
  status unauthorizedPage = 401 /\
  net hostProxied 1 "http://localhost:1337/user/me"
      {| method := Some "GET"; mode := None;
         headers := Some {[ "Content-Type" := HStr "application/json";
                            "Authorization" := HStr "Bearer jwt" ]};
         body := None; params := None |} = FResolve okEmpty /\
  fst (request hostProxied Part000 "/users" noOptions false true 0
               (st0 (Some "jwt")))
  = ReturnPromise (Rejected (External "Unexpected token < in JSON")) /\
  location (snd (request hostProxied Part000 "/users" noOptions false true 0
                         (st0 (Some "jwt"))))
  = Some "/admin/plugins/users-permissions/auth/login" /\
  token (snd (request hostProxied Part000 "/users" noOptions false true 0
                      (st0 (Some "jwt"))))
  = None.
Proof. repeat split; reflexivity. Qed.

(** C2, amended. When the fetch of [request] is fulfilled with a response
    of status 401 and the token store holds a token, [checkStatus]
    (called with [checkToken = true]) issues a GET to
    [<backendURL>/user/me] with the stored token as bearer credential.
    When that call resolves, the browsing context is navigated to
    [<remoteURL>/plugins/users-permissions/auth/login], the stored state
    is cleared, and the promise of [request] rejects with what
    [checkStatus(response, false)] fails with: when [response.json()] of
    the original response delivers a body [b], the error whose message is
    the status text and whose response has the status, the status text
    and the [json] method of the original, and [b] as its [payload];
    when [response.json()] fails, that failure. *)
Theorem request_revalidates_token (h : Host) (rev : Revision) (url : string)
    (options : Options) (watch stringify : bool) (fuel : nat) (st : State)
    (body' : option Body) (r : Response) (tok : string) :
  receives h rev url options stringify st body' r ->
  status r = 401 ->
  token st = Some tok ->
  truthyStr (token st) = true ->
  let st1 := dispatched h rev url options stringify st body' in
  let userMe :=
    {| method := Some "GET"; mode := None;
       headers := Some {[ "Content-Type" := HStr "application/json";
                          "Authorization" := HStr ("Bearer " +:+ tok) ]};
       body := None; params := None |} in
  (exists rest,
     trace (snd (checkStatus h r true st1)) =
     trace st1 ++ EFetch (backendURL h +:+ "/user/me") userMe :: rest)
  /\
  forall u,
    net h (fetches st1) (backendURL h +:+ "/user/me") userMe = FResolve u ->
    let st2 :=
      {| token := None;
         location :=
           Some (remoteURL h +:+ "/plugins/users-permissions/auth/login");
         locked := locked st1; fetches := S (fetches st1);
         trace := trace st1 ++
                  [EFetch (backendURL h +:+ "/user/me") userMe;
                   ENavigate
                     (remoteURL h +:+ "/plugins/users-permissions/auth/login");
                   EClearAppStorage] |} in
    exists e,
      settle (fst (checkStatus h r false st2)) = Rejected e /\
      snd (checkStatus h r false st2) = st2 /\
      request h rev url options watch stringify fuel st =
        (ReturnPromise (Rejected e), st2) /\
      (forall b, json r = Some (Delivers b) ->
         e = HttpError (statusText r)
               {| status := status r; statusText := statusText r;
                  json := json r; payload := Some b |}) /\
      (forall reason, json r = Some (Fails reason) -> e = External reason).
Proof.
  intros [Hbody Hnet] Hs Htok Ht st1 userMe.
  assert (Htok1 : token st1 = Some tok).
  { unfold st1. now rewrite dispatched_token. }
  assert (Ht1 : truthyStr (token st1) = true) by now rewrite Htok1, <- Htok.
  assert (Hopts : userMeOptions (token st1) = userMe).
  { now rewrite Htok1. }
  pose proof (checkStatus_revalidate h r st1 Hs Ht1) as Hcs.
  pose proof (respond_revalidate h r watch fuel st1 Hs Ht1) as Hre.
  rewrite Hopts in Hcs, Hre. split.
  - rewrite Hcs.
    destruct (net h (fetches st1) (backendURL h +:+ "/user/me") userMe);
      unfold loggedOut, fetched; cbn [snd trace]; rewrite ?Hopts; eauto.
  - intros u Hu st2. rewrite Hu in Hre.
    assert (Hst2 : loggedOut h st1 = st2).
    { unfold loggedOut, st2. now rewrite Hopts. }
    rewrite Hst2 in Hre.
    assert (Hagain : checkStatus h r false st2 = (throwWithPayload r, st2)).
    { apply checkStatus_error; [now apply status_401_outside|].
      unfold revalidates. apply andb_false_r. }
    exists (failure r). rewrite Hagain. cbn [fst snd].
    split; [apply settle_throwWithPayload|].
    split; [reflexivity|]. split; [|split].
    + rewrite (request_dispatch h _ _ _ _ _ _ _ _ Hbody), Hnet.
      fold st1. now rewrite Hre.
    + intros b Hb. unfold failure. rewrite Hb. unfold setPayload.
      now rewrite Hb.
    + intros reason Hb. unfold failure. now rewrite Hb.
Qed.

Lemma request_revalidates_token_witness :
  receives hostExpired Part000 "/users" noOptions true (st0 (Some "jwt"))
           None unauthorized
  /\ status unauthorized = 401
  /\ token (st0 (Some "jwt")) = Some "jwt"
  /\ truthyStr (token (st0 (Some "jwt"))) = true
  /\ exists rest,
       trace (snd (checkStatus hostExpired unauthorized true
                     (dispatched hostExpired Part000 "/users" noOptions true
                                 (st0 (Some "jwt")) None))) =
       trace (dispatched hostExpired Part000 "/users" noOptions true
                         (st0 (Some "jwt")) None)
       ++ EFetch "http://localhost:1337/user/me"
            {| method := Some "GET"; mode := None;
               headers := Some {[ "Content-Type" := HStr "application/json";
                                  "Authorization" := HStr "Bearer jwt" ]};
               body := None; params := None |} :: rest.
Proof.
  assert (Hrec : receives hostExpired Part000 "/users" noOptions true
                          (st0 (Some "jwt")) None unauthorized).
  { split; reflexivity. }
  split; [exact Hrec|]. split; [reflexivity|]. split; [reflexivity|].
  split; [reflexivity|].
  exact (proj1 (request_revalidates_token hostExpired Part000 "/users"
                  noOptions false true 0%nat (st0 (Some "jwt")) None
                  unauthorized "jwt" Hrec eq_refl eq_refl eq_refl)).
Defined.

(** C3, as stated, fails on the code. The callback that re-checks the
    status, navigates and clears the store is the fulfilment handler of
    the call to the current-user endpoint, and there is no rejection
    handler: when that call rejects, the promise of [request] rejects
    with its reason, the token is still stored, the location is
    untouched and no event follows the two fetches. *)
Lemma revalidation_rejected_counterexample :
  fst (request hostOffline Part000 "/users" noOptions false true 0
               (st0 (Some "jwt")))
  = ReturnPromise (Rejected (External "Failed to fetch"))
  /\ token (snd (request hostOffline Part000 "/users" noOptions false true 0
                         (st0 (Some "jwt")))) = Some "jwt"
  /\ location (snd (request hostOffline Part000 "/users" noOptions false true 0
                            (st0 (Some "jwt")))) = None
  /\ List.filter isLogout
       (trace (snd (request hostOffline Part000 "/users" noOptions false true 0
                            (st0 (Some "jwt"))))) = []
  /\ length (trace (snd (request hostOffline Part000 "/users" noOptions false
                                 true 0 (st0 (Some "jwt"))))) = 2%nat.
Proof. repeat split; vm_compute; reflexivity. Qed.

(** C3, amended. In the token-revalidation path, the response the call
    to the current-user endpoint resolves with is ignored: for every such
    response, whatever its status or body, the original response is
    re-checked, the browsing context is navigated to the login URL, the
    stored state is cleared and [checkStatus] is re-invoked with
    [checkToken = false], whose error rejects the promise. When the call
    rejects, none of this happens and the promise rejects with the reason
    of that call. *)
Theorem revalidation_ignores_response (h : Host) (r : Response) (st : State) :
  status r = 401 ->
  truthyStr (token st) = true ->
  (forall u,
     net h (fetches st) (backendURL h +:+ "/user/me")
         (userMeOptions (token st)) = FResolve u ->
     checkStatus h r true st =
     (ReturnPromise (settle (fst (checkStatus h r false (loggedOut h st)))),
      loggedOut h st)
     /\ snd (checkStatus h r false (loggedOut h st)) = loggedOut h st)
  /\
  (forall reason,
     net h (fetches st) (backendURL h +:+ "/user/me")
         (userMeOptions (token st)) = FReject reason ->
     checkStatus h r true st =
     (ReturnPromise (Rejected (External reason)),
      fetched (backendURL h +:+ "/user/me") (userMeOptions (token st)) st)).
Proof.
  intros Hs Ht.
  pose proof (checkStatus_revalidate h r st Hs Ht) as Hcs.
  split.
  - intros u Hu. rewrite Hu in Hcs.
    rewrite (checkStatus_error h r false (loggedOut h st)).
    + cbn [fst snd]. now rewrite settle_throwWithPayload.
    + now apply status_401_outside.
    + unfold revalidates. apply andb_false_r.
  - intros reason Hr. now rewrite Hr in Hcs.
Qed.

Lemma revalidation_ignores_response_witness :
  status unauthorized = 401 /\
  truthyStr (token (st0 (Some "jwt"))) = true /\
  net (hostScript [FResolve okEmpty]) (fetches (st0 (Some "jwt")))
      (backendURL (hostScript [FResolve okEmpty]) +:+ "/user/me")
      (userMeOptions (token (st0 (Some "jwt")))) = FResolve okEmpty /\
  snd (checkStatus (hostScript [FResolve okEmpty]) unauthorized false
         (loggedOut (hostScript [FResolve okEmpty]) (st0 (Some "jwt"))))
  = loggedOut (hostScript [FResolve okEmpty]) (st0 (Some "jwt")).
Proof.
  split; [reflexivity|]. split; [reflexivity|]. split; [reflexivity|].
  exact (proj2 (proj1 (revalidation_ignores_response
                         (hostScript [FResolve okEmpty]) unauthorized
                         (st0 (Some "jwt")) eq_refl eq_refl)
                  okEmpty eq_refl)).
Defined.

(** ** The restart watch (C5, C10) *)

(** C10. The watcher never looks at the response of the health check:
    whenever the fetch of the health endpoint resolves, with whatever
    response, the watcher calls [unlockApp] and resolves with the
    response it was given; two hosts whose health checks resolve, each
    with a response of its own, leave the same result and the same
    state. *)
Theorem watcher_ignores_health_response (h : Host) (response : Value)
    (fuel : nat) (st : State) (health : Response) :
  net h (fetches st) (backendURL h +:+ "/_health") healthOptions
    = FResolve health ->
  serverRestartWatcher h (S fuel) response st =
    (Fulfilled response,
     {| token := token st; location := location st; locked := false;
        fetches := S (fetches st);
        trace := trace st ++
                 [EFetch (backendURL h +:+ "/_health") healthOptions;
                  EUnlockApp] |})
  /\
  forall (h' : Host) (health' : Response),
    backendURL h' = backendURL h ->
    net h' (fetches st) (backendURL h' +:+ "/_health") healthOptions
      = FResolve health' ->
    serverRestartWatcher h' (S fuel) response st =
    serverRestartWatcher h (S fuel) response st.
Proof.
  intros H. split.
  - exact (watcher_resolves h response health fuel st H).
  - intros h' health' Hurl H'.
    rewrite (watcher_resolves h response health fuel st H).
    rewrite (watcher_resolves h' response health' fuel st H').
    unfold healthURL. now rewrite Hurl.
Qed.

Lemma watcher_ignores_health_response_witness :
  net (hostScript [FResolve badGateway]) (fetches (st0 None))
      (backendURL (hostScript [FResolve badGateway]) +:+ "/_health")
      healthOptions = FResolve badGateway
  /\ serverRestartWatcher (hostScript [FResolve badGateway]) 1
       (VJson (JObj [])) (st0 None) =
     (Fulfilled (VJson (JObj [])),
      {| token := None; location := None; locked := false; fetches := 1;
         trace := [EFetch "http://localhost:1337/_health" healthOptions;
                   EUnlockApp] |}).
Proof.
  split; [reflexivity|].
  exact (proj1 (watcher_ignores_health_response
                  (hostScript [FResolve badGateway]) (VJson (JObj [])) 0
                  (st0 None) badGateway eq_refl)).
Defined.

Lemma failedPolls_no_signal (h : Host) (k : nat) :
  List.filter (fun e => isLock e || isUnlock e) (failedPolls h k) = [].
Proof. induction k as [|k IH]; [reflexivity | exact IH]. Qed.

(** The failed polls, written out: each is a HEAD request to the health
    endpoint, in [no-cors] mode, followed by a wait of 100 ms. *)
Lemma failedPolls_replicate (h : Host) (k : nat) :
  failedPolls h k =
  List.concat
    (replicate k
       [EFetch (backendURL h +:+ "/_health")
          {| method := Some "HEAD"; mode := Some "no-cors";
             headers := Some {[ "Content-Type" := HStr "application/json";
                                "Keep-Alive" := HBool false ]};
             body := None; params := None |};
        ESetTimeout 100]).
Proof.
  induction k as [|k IH]; [reflexivity|].
  cbn [failedPolls replicate List.concat]. rewrite IH. reflexivity.
Qed.

(** C5. When the fetch of a call with [shouldWatchServerRestart = true]
    is fulfilled with a response in [200,300) whose parse succeeds with
    [v], and the health checks fail [k] times before one resolves, then
    (a run long enough for [k + 1] polls) [lockApp] is called, the health
    endpoint [<backendURL>/_health] is polled by requests of method HEAD
    (mode [no-cors], headers [Content-Type: application/json] and
    [Keep-Alive: false], no body) with a wait of 100 ms after each
    failure, [unlockApp] is called on the first poll that resolves and
    the promise is fulfilled with [v]. [lockApp] and [unlockApp] are
    called once each, in that order; however long the run, [lockApp] is
    the first thing done after the fetch and the promise is never
    rejected by a failed poll. *)
Theorem request_watches_restart (h : Host) (rev : Revision) (url : string)
    (options : Options) (stringify : bool) (fuel : nat) (st : State)
    (body' : option Body) (r : Response) (v : Value) (health : Response)
    (k : nat) :
  let head :=
    {| method := Some "HEAD"; mode := Some "no-cors";
       headers := Some {[ "Content-Type" := HStr "application/json";
                          "Keep-Alive" := HBool false ]};
       body := None; params := None |} in
  let poll := EFetch (backendURL h +:+ "/_health") head in
  receives h rev url options stringify st body' r ->
  200 <= status r < 300 ->
  settle (parseJSON (Some r)) = Fulfilled v ->
  let st1 := dispatched h rev url options stringify st body' in
  (forall i, (i < k)%nat ->
     exists reason,
       net h (fetches st1 + i) (backendURL h +:+ "/_health") head
       = FReject reason) ->
  net h (fetches st1 + k) (backendURL h +:+ "/_health") head
    = FResolve health ->
  (k < fuel)%nat ->
  request h rev url options true stringify fuel st =
    (ReturnPromise (Fulfilled v),
     {| token := token st1; location := location st1; locked := false;
        fetches := fetches st1 + S k;
        trace := trace st1 ++
                 ELockApp :: List.concat (replicate k [poll; ESetTimeout 100])
                 ++ [poll; EUnlockApp] |})
  /\
  List.filter (fun e => isLock e || isUnlock e)
         (ELockApp :: List.concat (replicate k [poll; ESetTimeout 100])
          ++ [poll; EUnlockApp])
  = [ELockApp; EUnlockApp]
  /\
  (forall fuel' e,
     fst (request h rev url options true stringify fuel' st)
     <> ReturnPromise (Rejected e))
  /\
  forall fuel',
    exists rest,
      trace (snd (request h rev url options true stringify fuel' st))
      = trace st1 ++ ELockApp :: rest.
Proof.
  intros head poll [Hbody Hnet] Hin Hparse st1 Hfail Hok Hfuel.
  apply inRange_true in Hin.
  assert (Hrun : forall n,
            request h rev url options true stringify n st =
            let (w, st') :=
              serverRestartWatcher h n v (snd (lockApp st1)) in
            (ReturnPromise w, st')).
  { intros n. rewrite (request_dispatch h _ _ _ _ _ _ _ _ Hbody), Hnet.
    fold st1. rewrite respond_in_range by assumption. rewrite Hparse.
    destruct (serverRestartWatcher h n v (snd (lockApp st1))); reflexivity. }
  assert (Hpolls : List.concat (replicate k [poll; ESetTimeout 100])
                   = failedPolls h k).
  { symmetry. apply failedPolls_replicate. }
  rewrite Hpolls.
  split; [|split; [|split]].
  - rewrite Hrun.
    rewrite (watcher_polls h v health k fuel (snd (lockApp st1)));
      try assumption.
    cbn [lockApp snd token location locked fetches trace].
    rewrite <- app_assoc. reflexivity.
  - cbn [List.filter isLock isUnlock orb]. rewrite List.filter_app.
    rewrite failedPolls_no_signal. reflexivity.
  - intros fuel' e. rewrite Hrun.
    pose proof (watcher_never_rejects h v fuel' (snd (lockApp st1)) e) as Hnr.
    destruct (serverRestartWatcher h fuel' v (snd (lockApp st1))) as [w st'].
    cbn [fst] in *. congruence.
  - intros fuel'. rewrite Hrun.
    destruct (watcher_extends h v fuel' (snd (lockApp st1))) as [rest Hrest].
    destruct (serverRestartWatcher h fuel' v (snd (lockApp st1))) as [w st'].
    exists rest. cbn [snd lockApp trace] in *.
    now rewrite Hrest, <- app_assoc.
Qed.

Lemma request_watches_restart_witness :
  receives hostRestarting Part000 "/settings" noOptions true (st0 None) None
           okEmpty
  /\ 200 <= status okEmpty < 300
  /\ settle (parseJSON (Some okEmpty)) = Fulfilled (VJson (JObj []))
  /\ (2 < 5)%nat
  /\ request hostRestarting Part000 "/settings" noOptions true true 5
              (st0 None)
     = (ReturnPromise (Fulfilled (VJson (JObj []))),
        {| token := None; location := None; locked := false; fetches := 4;
           trace :=
             trace (dispatched hostRestarting Part000 "/settings" noOptions
                               true (st0 None) None)
             ++ [ELockApp;
                 EFetch "http://localhost:1337/_health"
                   {| method := Some "HEAD"; mode := Some "no-cors";
                      headers :=
                        Some {[ "Content-Type" := HStr "application/json";
                                "Keep-Alive" := HBool false ]};
                      body := None; params := None |};
                 ESetTimeout 100;
                 EFetch "http://localhost:1337/_health"
                   {| method := Some "HEAD"; mode := Some "no-cors";
                      headers :=
                        Some {[ "Content-Type" := HStr "application/json";
                                "Keep-Alive" := HBool false ]};
                      body := None; params := None |};
                 ESetTimeout 100;
                 EFetch "http://localhost:1337/_health"
                   {| method := Some "HEAD"; mode := Some "no-cors";
                      headers :=
                        Some {[ "Content-Type" := HStr "application/json";
                                "Keep-Alive" := HBool false ]};
                      body := None; params := None |};
                 EUnlockApp] |}).
Proof.
  assert (Hrec : receives hostRestarting Part000 "/settings" noOptions true
                          (st0 None) None okEmpty).
  { split; reflexivity. }
  assert (Hin : 200 <= status okEmpty < 300) by (simpl; lia).
  assert (Hfail : forall i, (i < 2)%nat ->
            exists reason,
              net hostRestarting
                  (fetches (dispatched hostRestarting Part000 "/settings"
                                       noOptions true (st0 None) None) + i)
                  (backendURL hostRestarting +:+ "/_health")
                  {| method := Some "HEAD"; mode := Some "no-cors";
                     headers :=
                       Some {[ "Content-Type" := HStr "application/json";
                               "Keep-Alive" := HBool false ]};
                     body := None; params := None |}
              = FReject reason).
  { intros i Hi. exists "Failed to fetch".
    destruct i as [|[|i]]; [reflexivity | reflexivity | lia]. }
  assert (Hfuel : (2 < 5)%nat) by lia.
  split; [exact Hrec|]. split; [exact Hin|]. split; [reflexivity|].
  split; [exact Hfuel|].
  exact (proj1 (request_watches_restart hostRestarting Part000
                  "/settings" noOptions true 5 (st0 None) None okEmpty
                  (VJson (JObj [])) (mkResponse 0 "" None) 2
                  Hrec Hin eq_refl Hfail eq_refl Hfuel)).
Defined.

Example restart_watch_run :
  fst (request hostRestarting Part000 "/settings" noOptions true true 5
               (st0 None))
  = ReturnPromise (Fulfilled (VJson (JObj []))) /\
  List.filter (fun e => isLock e || isUnlock e)
    (trace (snd (request hostRestarting Part000 "/settings" noOptions true
                         true 5 (st0 None))))
  = [ELockApp; EUnlockApp].
Proof. split; vm_compute; reflexivity. Qed.

(** ** Headers (C6, C7) *)

Lemma requestHeaders_absent (tok : option string) (options : Options) :
  headers options = None ->
  requestHeaders tok options =
  if truthyStr tok
  then {[ "Authorization" := HStr ("Bearer " +:+ template tok) ]}
       ∪ (forwardedHost ∪ contentTypeJson)
  else forwardedHost ∪ contentTypeJson.
Proof.
  intros H. unfold requestHeaders. rewrite H.
  destruct (truthyStr tok); reflexivity.
Qed.

Lemma requestHeaders_present (tok : option string) (options : Options)
    (caller : gmap string HeaderValue) :
  headers options = Some caller ->
  requestHeaders tok options =
  if truthyStr tok
  then caller ∪ {[ "Authorization" := HStr ("Bearer " +:+ template tok) ]}
  else caller.
Proof.
  intros H. unfold requestHeaders. rewrite H.
  destruct (truthyStr tok); reflexivity.
Qed.

(** When the caller supplies headers, the defaults are not merged in:
    but for [Authorization], the headers sent are the caller's. *)
Lemma requestHeaders_caller_only (tok : option string) (options : Options)
    (caller : gmap string HeaderValue) (k : string) :
  headers options = Some caller ->
  k <> "Authorization" ->
  requestHeaders tok options !! k = caller !! k.
Proof.
  intros Hh Hk. rewrite (requestHeaders_present _ _ _ Hh).
  destruct (truthyStr tok); [|reflexivity].
  rewrite lookup_union, lookup_singleton_ne by congruence.
  now destruct (caller !! k).
Qed.

(** C6. The fetch of [request] is given the headers computed from the
    caller's options. When [options.headers] is absent they are the
    default [Content-Type: application/json] merged with the marker
    [X-Forwarded-Host: strapi], with no other header but the
    [Authorization] the token store may add. When the caller supplies
    headers they override these defaults as a whole: each header of the
    caller is sent with the caller's value, and but for [Authorization]
    no header is sent that the caller did not supply. *)
Theorem request_default_headers (h : Host) (rev : Revision) (url : string)
    (options : Options) (watch stringify : bool) (fuel : nat) (st : State)
    (body' : option Body) :
  fst (requestBody h rev (body options) stringify st) = Ok body' ->
  exists logs rest sent,
    forallb isConsoleLog logs = true /\
    trace (snd (request h rev url options watch stringify fuel st)) =
      trace st ++ logs ++
      EFetch (dispatchURL h url options)
        {| method := method options; mode := mode options;
           headers := Some sent; body := body'; params := params options |}
      :: rest /\
    (headers options = None ->
       sent !! "Content-Type" = Some (HStr "application/json") /\
       sent !! "X-Forwarded-Host" = Some (HStr "strapi") /\
       forall k, k <> "Content-Type" -> k <> "X-Forwarded-Host" ->
                 k <> "Authorization" -> sent !! k = None) /\
    (forall caller k v,
       headers options = Some caller -> caller !! k = Some v ->
       sent !! k = Some v) /\
    (forall caller k,
       headers options = Some caller -> k <> "Authorization" ->
       sent !! k = caller !! k).
Proof.
  intros Hbody.
  destruct (request_first_fetch h rev url options watch stringify fuel st
              body' Hbody) as (logs & rest & Hlogs & Htrace).
  exists logs, rest, (requestHeaders (token st) options).
  split; [assumption|]. split; [exact Htrace|]. split.
  - intros Habsent. rewrite (requestHeaders_absent _ _ Habsent).
    unfold forwardedHost, contentTypeJson.
    destruct (truthyStr (token st)).
    + split; [reflexivity|]. split; [reflexivity|].
      intros k H1 H2 H3. rewrite !lookup_union.
      rewrite !lookup_singleton_ne by congruence. reflexivity.
    + split; [reflexivity|]. split; [reflexivity|].
      intros k H1 H2 H3. rewrite !lookup_union.
      rewrite !lookup_singleton_ne by congruence. reflexivity.
  - split.
    + intros caller k v Hcaller Hk.
      rewrite (requestHeaders_present _ _ _ Hcaller).
      destruct (truthyStr (token st)); [|assumption].
      now apply lookup_union_Some_l.
    + intros caller k Hcaller Hk.
      now apply requestHeaders_caller_only.
Qed.

Lemma request_default_headers_witness :
  fst (requestBody (hostScript [FResolve okEmpty]) Part000 (body noOptions)
                   true (st0 None)) = Ok None
  /\ exists logs rest sent,
       forallb isConsoleLog logs = true /\
       trace (snd (request (hostScript [FResolve okEmpty]) Part000 "/users"
                           noOptions false true 0 (st0 None))) =
         trace (st0 None) ++ logs ++
         EFetch (dispatchURL (hostScript [FResolve okEmpty]) "/users" noOptions)
           {| method := method noOptions; mode := mode noOptions;
              headers := Some sent; body := None;
              params := params noOptions |}
         :: rest /\
       (headers noOptions = None ->
          sent !! "Content-Type" = Some (HStr "application/json") /\
          sent !! "X-Forwarded-Host" = Some (HStr "strapi") /\
          forall k, k <> "Content-Type" -> k <> "X-Forwarded-Host" ->
                    k <> "Authorization" -> sent !! k = None) /\
       (forall caller k v,
          headers noOptions = Some caller -> caller !! k = Some v ->
          sent !! k = Some v) /\
       (forall caller k,
          headers noOptions = Some caller -> k <> "Authorization" ->
          sent !! k = caller !! k).
Proof.
  split; [reflexivity|].
  exact (request_default_headers (hostScript [FResolve okEmpty]) Part000
           "/users" noOptions false true 0%nat (st0 None) None eq_refl).
Defined.

(** C7. When the token store yields a token, the fetch of [request] is
    given an [Authorization] header: [Bearer <token>], unless the caller
    supplied an [Authorization] header of its own, which then is the one
    sent; every other header is as without the token. *)
Theorem request_injects_authorization (h : Host) (rev : Revision)
    (url : string) (options : Options) (watch stringify : bool) (fuel : nat)
    (st : State) (body' : option Body) (tok : string) :
  fst (requestBody h rev (body options) stringify st) = Ok body' ->
  token st = Some tok ->
  truthyStr (Some tok) = true ->
  exists logs rest sent,
    forallb isConsoleLog logs = true /\
    trace (snd (request h rev url options watch stringify fuel st)) =
      trace st ++ logs ++
      EFetch (dispatchURL h url options)
        {| method := method options; mode := mode options;
           headers := Some sent; body := body'; params := params options |}
      :: rest /\
    sent !! "Authorization" =
      Some match headers options ≫= (fun caller => caller !! "Authorization") with
           | Some supplied => supplied
           | None => HStr ("Bearer " +:+ tok)
           end /\
    forall k, k <> "Authorization" ->
      sent !! k = requestHeaders None options !! k.
Proof.
  intros Hbody Htok Ht.
  destruct (request_first_fetch h rev url options watch stringify fuel st
              body' Hbody) as (logs & rest & Hlogs & Htrace).
  exists logs, rest, (requestHeaders (token st) options).
  split; [assumption|]. split; [exact Htrace|].
  rewrite Htok.
  destruct (headers options) as [caller|] eqn:Hh.
  - rewrite (requestHeaders_present (Some tok) _ _ Hh), Ht.
    rewrite (requestHeaders_present None _ _ Hh).
    cbn [truthyStr mbind option_bind template default]. split.
    + rewrite lookup_union.
      destruct (caller !! "Authorization"); [reflexivity|].
      now rewrite lookup_singleton_eq.
    + intros k Hk. rewrite lookup_union.
      rewrite lookup_singleton_ne by congruence.
      now destruct (caller !! k).
  - rewrite (requestHeaders_absent (Some tok) _ Hh), Ht.
    rewrite (requestHeaders_absent None _ Hh).
    cbn [truthyStr mbind option_bind template default]. split.
    + reflexivity.
    + intros k Hk. rewrite (lookup_union {[ "Authorization" := _ ]}).
      rewrite lookup_singleton_ne by congruence.
      now destruct ((forwardedHost ∪ contentTypeJson) !! k).
Qed.

Lemma request_injects_authorization_witness :
  fst (requestBody (hostScript [FResolve okEmpty]) HelperPlugin
                   (body callerOptions) true (st0 (Some "jwt"))) = Ok None
  /\ token (st0 (Some "jwt")) = Some "jwt"
  /\ truthyStr (Some "jwt") = true
  /\ exists logs rest sent,
       forallb isConsoleLog logs = true /\
       trace (snd (request (hostScript [FResolve okEmpty]) HelperPlugin
                           "/users" callerOptions false true 0
                           (st0 (Some "jwt")))) =
         trace (st0 (Some "jwt")) ++ logs ++
         EFetch (dispatchURL (hostScript [FResolve okEmpty]) "/users"
                             callerOptions)
           {| method := method callerOptions; mode := mode callerOptions;
              headers := Some sent; body := None;
              params := params callerOptions |}
         :: rest /\
       sent !! "Authorization" =
         Some match headers callerOptions
                    ≫= (fun caller => caller !! "Authorization") with
              | Some supplied => supplied
              | None => HStr ("Bearer " +:+ "jwt")
              end /\
       forall k, k <> "Authorization" ->
         sent !! k = requestHeaders None callerOptions !! k.
Proof.
  split; [reflexivity|]. split; [reflexivity|]. split; [reflexivity|].
  exact (request_injects_authorization (hostScript [FResolve okEmpty])
           HelperPlugin "/users" callerOptions false true 0%nat
           (st0 (Some "jwt")) None "jwt" eq_refl eq_refl eq_refl).
Defined.

Example bearer_sample :
  requestHeaders (Some "jwt") noOptions !! "Authorization"
  = Some (HStr "Bearer jwt")
  /\ requestHeaders (Some "jwt") callerOptions !! "Authorization"
     = Some (HStr "Basic YWRtaW46YWRtaW4=").
Proof. split; reflexivity. Qed.

(** ** The URL (C8) *)

Lemma encodeByte_separators (c : ascii) :
  occurs "&" (encodeByte c) = false /\ occurs "=" (encodeByte c) = false.
Proof.
  destruct c as [[] [] [] [] [] [] [] []]; split; reflexivity.
Qed.

Lemma occurs_append (c : ascii) (a b : string) :
  occurs c (a +:+ b) = occurs c a || occurs c b.
Proof.
  induction a as [|x a IH]; simpl; [reflexivity|].
  now rewrite IH, orb_assoc.
Qed.

Lemma encodeURIComponent_separators (s : string) :
  occurs "&" (encodeURIComponent s) = false /\
  occurs "=" (encodeURIComponent s) = false.
Proof.
  induction s as [|c s [IH1 IH2]]; [split; reflexivity|].
  cbn [encodeURIComponent]. rewrite !occurs_append, IH1, IH2.
  destruct (encodeByte_separators c) as [-> ->]. split; reflexivity.
Qed.

Lemma splitOn_whole (sep : ascii) (s : string) :
  occurs sep s = false -> splitOn sep s = [s].
Proof.
  induction s as [|c s IH]; simpl; [reflexivity|].
  intros H. apply orb_false_elim in H as [Hc Hs].
  rewrite Hc, (IH Hs). reflexivity.
Qed.

Lemma splitOn_append (sep : ascii) (a b : string) :
  occurs sep a = false ->
  splitOn sep (a +:+ String sep b) = a :: splitOn sep b.
Proof.
  induction a as [|c a IH]; simpl.
  - intros _. now rewrite Ascii.eqb_refl.
  - intros H. apply orb_false_elim in H as [Hc Ha].
    rewrite Hc, (IH Ha). reflexivity.
Qed.

Lemma splitOn_concat (sep : ascii) (l : list string) :
  Forall (fun s => occurs sep s = false) l ->
  l <> [] ->
  splitOn sep (String.concat (String sep "") l) = l.
Proof.
  induction 1 as [|x l Hx Hl IH]; intros Hne; [contradiction|].
  destruct l as [|y l].
  - simpl. now apply splitOn_whole.
  - replace (String.concat (String sep "") (x :: y :: l))
      with (x +:+ String sep (String.concat (String sep "") (y :: l)))
      by reflexivity.
    rewrite splitOn_append by assumption.
    f_equal. apply IH. discriminate.
Qed.

Lemma pairOf_split (kv : string * string) :
  occurs "&" (pairOf kv) = false /\
  splitOn "=" (pairOf kv)
  = [encodeURIComponent (fst kv); encodeURIComponent (snd kv)].
Proof.
  unfold pairOf.
  destruct (encodeURIComponent_separators (fst kv)) as [Ha1 He1].
  destruct (encodeURIComponent_separators (snd kv)) as [Ha2 He2].
  split.
  - rewrite !occurs_append, Ha1, Ha2. reflexivity.
  - replace (encodeURIComponent (fst kv) +:+ "=" +:+
             encodeURIComponent (snd kv))
      with (encodeURIComponent (fst kv) +:+
            String "=" (encodeURIComponent (snd kv))) by reflexivity.
    rewrite splitOn_append by assumption.
    now rewrite splitOn_whole.
Qed.

Lemma prop_entry (ps : Params) (k v : string) :
  List.NoDup (keys ps) -> In (k, v) ps -> prop ps k = Some v.
Proof.
  induction ps as [|[k' v'] ps IH]; simpl; [contradiction|].
  intros Hnd Hin. apply List.NoDup_cons_iff in Hnd as [Hfresh Hnd].
  destruct Hin as [Heq|Hin].
  - injection Heq as -> ->. now rewrite String.eqb_refl.
  - destruct (String.eqb_spec k' k) as [->|Hne].
    + exfalso. apply Hfresh. apply (in_map fst) in Hin. exact Hin.
    + now apply IH.
Qed.

Lemma formatQueryParams_pairs (ps : Params) :
  List.NoDup (keys ps) ->
  formatQueryParams ps = String.concat "&" (map pairOf ps).
Proof.
  intros Hnd. unfold formatQueryParams, keys. f_equal.
  rewrite map_map. apply map_ext_in. intros [k v] Hin.
  unfold formatPair, pairOf. cbn [fst snd].
  now rewrite (prop_entry ps k v Hnd Hin).
Qed.

Lemma decode_encodeByte (c : ascii) (rest : string) :
  decodeURIComponent (encodeByte c +:+ rest)
  = option_map (String c) (decodeURIComponent rest).
Proof.
  destruct c as [[] [] [] [] [] [] [] []]; reflexivity.
Qed.

Lemma decode_encode (s : string) :
  decodeURIComponent (encodeURIComponent s) = Some s.
Proof.
  induction s as [|c s IH]; [reflexivity|].
  cbn [encodeURIComponent]. now rewrite decode_encodeByte, IH.
Qed.

Lemma parsePair_pairOf (kv : string * string) :
  parsePair (pairOf kv) = Some kv.
Proof.
  unfold parsePair. rewrite (proj2 (pairOf_split kv)).
  rewrite !decode_encode. now destruct kv.
Qed.

Lemma parsePairs_pairs (ps : Params) :
  parsePairs (map pairOf ps) = Some ps.
Proof.
  induction ps as [|kv ps IH]; [reflexivity|].
  simpl. now rewrite parsePair_pairOf, IH.
Qed.

Lemma pairs_not_empty (kv : string * string) (ps : Params) :
  String.concat "&" (map pairOf (kv :: ps)) <> "".
Proof.
  intros H. apply (f_equal (occurs "=")) in H.
  assert (Hocc : occurs "=" (pairOf kv) = true).
  { unfold pairOf. rewrite !occurs_append. simpl. apply orb_true_r. }
  destruct ps as [|kv' ps]; simpl in H.
  - rewrite Hocc in H. discriminate.
  - rewrite occurs_append, Hocc in H. discriminate.
Qed.

Lemma parseQuery_format (ps : Params) :
  List.NoDup (keys ps) -> parseQuery (formatQueryParams ps) = Some ps.
Proof.
  intros Hnd. rewrite (formatQueryParams_pairs ps Hnd).
  destruct ps as [|kv ps]; [reflexivity|].
  unfold parseQuery.
  destruct (String.eqb_spec (String.concat "&" (map pairOf (kv :: ps))) "")
    as [He|_]; [now apply pairs_not_empty in He|].
  rewrite splitOn_concat.
  - apply parsePairs_pairs.
  - apply List.Forall_forall. intros s Hs.
    apply in_map_iff in Hs as (x & <- & _). apply pairOf_split.
  - discriminate.
Qed.

(** C8. The URL given to the fetch of [request] is the backend base URL
    followed by [url] when [url] starts with [/], and [url] as it is
    otherwise; when [options.params] is present it is followed by [?] and
    the query string, in which the entries of [params] appear in order,
    one [key=value] pair each, key and value encoded by
    [encodeURIComponent], joined by [&]. The encoding is a percent
    encoding that loses nothing and leaves no separator in a key or a
    value: splitting the query string at [&] gives one piece per entry,
    and splitting each piece at [=] and decoding both sides with
    [decodeURIComponent] gives back the entries of [params], in order. *)
Theorem request_url (h : Host) (rev : Revision) (url : string)
    (options : Options) (watch stringify : bool) (fuel : nat) (st : State)
    (body' : option Body) :
  fst (requestBody h rev (body options) stringify st) = Ok body' ->
  (forall ps, params options = Some ps -> List.NoDup (keys ps)) ->
  exists logs rest base sent,
    forallb isConsoleLog logs = true /\
    trace (snd (request h rev url options watch stringify fuel st)) =
      trace st ++ logs ++
      EFetch sent (dispatchOptions st options body') :: rest /\
    (forall path, url = String "/" path -> base = backendURL h +:+ url) /\
    ((forall path, url <> String "/" path) -> base = url) /\
    match params options with
    | None => sent = base
    | Some ps =>
        exists query,
          sent = base +:+ "?" +:+ query /\
          query =
            String.concat "&"
              (map (fun kv => encodeURIComponent (fst kv) +:+ "=" +:+
                              encodeURIComponent (snd kv)) ps) /\
          parseQuery query = Some ps /\
          (ps <> [] -> length (splitOn "&" query) = length ps)
    end.
Proof.
  intros Hbody Hnd.
  destruct (request_first_fetch h rev url options watch stringify fuel st
              body' Hbody) as (logs & rest & Hlogs & Htrace).
  exists logs, rest,
    (if startsWithSlash url then backendURL h +:+ url else url),
    (dispatchURL h url options).
  split; [assumption|]. split; [exact Htrace|]. split; [|split].
  - intros path ->. reflexivity.
  - intros Hno. destruct url as [|c url]; [reflexivity|].
    cbn [startsWithSlash]. destruct (Ascii.eqb_spec c "/") as [->|_];
      [|reflexivity].
    exfalso. now apply (Hno url).
  - unfold dispatchURL, requestURL.
    destruct (params options) as [ps|] eqn:Hps; [|reflexivity].
    pose proof (Hnd ps eq_refl) as Hnd'.
    exists (formatQueryParams ps). split; [reflexivity|]. split; [|split].
    + exact (formatQueryParams_pairs ps Hnd').
    + now apply parseQuery_format.
    + intros Hne. rewrite (formatQueryParams_pairs ps Hnd').
      rewrite splitOn_concat.
      * apply length_map.
      * apply List.Forall_forall. intros x Hx.
        apply in_map_iff in Hx as (kv & <- & _). apply pairOf_split.
      * destruct ps; [contradiction | discriminate].
Qed.

Lemma request_url_witness :
  fst (requestBody (hostScript [FResolve okEmpty]) Part000
                   (body callerOptions) true (st0 None)) = Ok None
  /\ (forall ps, params callerOptions = Some ps -> List.NoDup (keys ps))
  /\ exists logs rest,
       forallb isConsoleLog logs = true /\
       trace (snd (request (hostScript [FResolve okEmpty]) Part000 "/users"
                           callerOptions false true 0 (st0 None))) =
         trace (st0 None) ++ logs ++
         EFetch "http://localhost:1337/users?_q=a%20b%26c&sort=name%3Aasc"
                (dispatchOptions (st0 None) callerOptions None) :: rest.
Proof.
  assert (Hnd : forall ps, params callerOptions = Some ps ->
                           List.NoDup (keys ps)).
  { intros ps H. injection H as <-.
    repeat constructor; cbn; intuition discriminate. }
  split; [reflexivity|]. split; [exact Hnd|].
  destruct (request_url (hostScript [FResolve okEmpty]) Part000 "/users"
              callerOptions false true 0%nat (st0 None) None eq_refl Hnd)
    as (logs & rest & base & sent & Hlogs & Htrace & Hslash & _ & Hq).
  exists logs, rest. split; [exact Hlogs|].
  cbv [callerOptions params] in Hq.
  destruct Hq as (query & Hsent & Hquery & _ & _).
  rewrite Htrace, Hsent, Hquery, (Hslash "users" eq_refl). reflexivity.
Defined.

Example requestURL_sample :
  requestURL (hostScript []) "/users" callerOptions
  = "http://localhost:1337/users?_q=a%20b%26c&sort=name%3Aasc"
  /\ requestURL (hostScript []) "https://example.org/users" noOptions
     = "https://example.org/users".
Proof. split; reflexivity. Qed.

(** ** Captions of a multipart body (C4) *)

Lemma getAll_app (a b : FormData) (name : string) :
  getAll (a ++ b) name = getAll a name ++ getAll b name.
Proof. unfold getAll. now rewrite List.filter_app, map_app. Qed.

Lemma filesIn_app (a b : list FormValue) :
  filesIn (a ++ b) = filesIn a ++ filesIn b.
Proof.
  induction a as [|[s|f] a IH]; simpl; [reflexivity | assumption |].
  now rewrite IH.
Qed.

Lemma filesOf_captions (field name : string) (fs : list File) :
  filesIn (getAll (map (captionEntry field) fs) name) = [].
Proof.
  induction fs as [|f fs IH]; [reflexivity|].
  unfold getAll in *. simpl.
  destruct (String.eqb (field +:+ "Captions") name); simpl; exact IH.
Qed.

Lemma appendCaptionsOf_files (field : string) (l : list FormValue) :
  forall acc : FormData,
  fold_left
    (fun b fileEntry =>
       match fileEntry with
       | FFile f => append b (field +:+ "Captions") (caption f)
       | FString _ => b
       end) l acc
  = acc ++ map (captionEntry field) (filesIn l).
Proof.
  induction l as [|[s|f] l IH]; intros acc; simpl.
  - now rewrite app_nil_r.
  - apply IH.
  - rewrite IH. unfold append. now rewrite <- app_assoc.
Qed.

Lemma appendCaptionsOf_spec (field : string) (body : FormData) :
  appendCaptionsOf field body = body ++ captionsOf body field.
Proof. unfold appendCaptionsOf. apply appendCaptionsOf_files. Qed.

Lemma filesOf_flat_map (body : FormData) (fields : list string)
    (name : string) :
  filesIn (getAll (flat_map (captionsOf body) fields) name) = [].
Proof.
  induction fields as [|f fields IH]; [reflexivity|].
  simpl. rewrite getAll_app, filesIn_app, IH.
  unfold captionsOf. now rewrite filesOf_captions.
Qed.

Lemma appendCaptions_fold (body : FormData) (fields : list string) :
  forall done : list string,
  fold_left (fun b field => appendCaptionsOf field b) fields
            (body ++ flat_map (captionsOf body) done)
  = body ++ flat_map (captionsOf body) (done ++ fields).
Proof.
  induction fields as [|f fields IH]; intros done; simpl.
  - now rewrite app_nil_r.
  - rewrite appendCaptionsOf_spec.
    assert (Hsame : captionsOf (body ++ flat_map (captionsOf body) done) f
                    = captionsOf body f).
    { unfold captionsOf at 1 3. unfold filesOf.
      now rewrite getAll_app, filesIn_app, filesOf_flat_map, app_nil_r. }
    rewrite Hsame, <- app_assoc.
    replace (flat_map (captionsOf body) done ++ captionsOf body f)
      with (flat_map (captionsOf body) (done ++ [f])).
    + rewrite IH, <- app_assoc. reflexivity.
    + rewrite flat_map_app. simpl. now rewrite app_nil_r.
Qed.

Lemma appendCaptions_appended (body : FormData) :
  appendCaptions body = body ++ flat_map (captionsOf body) (fileFieldsOf body).
Proof.
  unfold appendCaptions.
  pose proof (appendCaptions_fold body (fileFieldsOf body) []) as H.
  simpl in H. now rewrite app_nil_r in H.
Qed.

Lemma collectCaptions_id (body : FormData) : collectCaptions body = body.
Proof.
  unfold collectCaptions. induction (fileFieldsOf body); simpl; auto.
Qed.

Lemma append_cancel_r (a b s : string) : a +:+ s = b +:+ s -> a = b.
Proof.
  assert (Hlen : forall x y : string,
            String.length (x +:+ y) = (String.length x + String.length y)%nat).
  { induction x as [|c x IH]; intros y; simpl; [reflexivity|].
    now rewrite IH. }
  revert b. induction a as [|c a IH]; intros [|d b] H; simpl in H.
  - reflexivity.
  - apply (f_equal String.length) in H. rewrite !Hlen in H. simpl in H.
    rewrite ?Hlen in H. lia.
  - apply (f_equal String.length) in H. rewrite !Hlen in H. simpl in H.
    rewrite ?Hlen in H. lia.
  - injection H as -> H. f_equal. now apply IH.
Qed.

Lemma getAll_captionsOf (body : FormData) (field name : string) :
  getAll (captionsOf body field) name =
  if String.eqb (field +:+ "Captions") name
  then map (fun f => FString (toUSVString (caption f))) (filesOf body field)
  else [].
Proof.
  unfold captionsOf, getAll.
  induction (filesOf body field) as [|f fs IH]; simpl.
  - now destruct (String.eqb _ _).
  - destruct (String.eqb (field +:+ "Captions") name); simpl;
      [now rewrite IH | exact IH].
Qed.

Lemma dedupe_In (l : list string) :
  forall (seen : list string) (x : string),
  In x (dedupe seen l) <->
  In x l /\ existsb (String.eqb x) seen = false.
Proof.
  induction l as [|a l IH]; intros seen x; simpl; [tauto|].
  destruct (existsb (String.eqb a) seen) eqn:Ha.
  - rewrite IH. split; [tauto|]. intros [[->|Hin] Hx]; [congruence | tauto].
  - simpl. rewrite IH. simpl.
    destruct (String.eqb_spec x a) as [->|Hne]; simpl.
    + split; [intros [_|[_ Hf]]; [tauto | discriminate] | tauto].
    + split; [intros [Heq|[Hin Hx]]; [congruence | tauto]|].
      intros [[Heq|Hin] Hx]; [congruence | tauto].
Qed.

Lemma dedupe_NoDup (l : list string) :
  forall seen : list string, List.NoDup (dedupe seen l).
Proof.
  induction l as [|a l IH]; intros seen; simpl; [constructor|].
  destruct (existsb (String.eqb a) seen); [apply IH|].
  constructor; [|apply IH].
  rewrite dedupe_In. simpl. rewrite String.eqb_refl. intros [_ H].
  discriminate.
Qed.

Lemma filesIn_nil (l : list FormValue) :
  filesIn l = [] <-> forall v, In v l -> isFile v = false.
Proof.
  induction l as [|[s|f] l IH]; simpl.
  - split; [contradiction | reflexivity].
  - rewrite IH. split.
    + intros H v [<-|Hin]; [reflexivity | now apply H].
    + intros H v Hin. apply H. now right.
  - split; [discriminate|]. intros H.
    specialize (H (FFile f) (or_introl eq_refl)). discriminate.
Qed.

Lemma fileFieldsOf_In (body : FormData) (field : string) :
  In field (fileFieldsOf body) <-> filesOf body field <> [].
Proof.
  unfold fileFieldsOf, filesOf, getAll. rewrite dedupe_In. simpl.
  rewrite filesIn_nil. split.
  - intros [Hin _] Hnone.
    apply in_map_iff in Hin as ([n v] & Hn & Hin). simpl in Hn. subst n.
    apply List.filter_In in Hin as [Hin Hv]. simpl in Hv.
    rewrite (Hnone v) in Hv; [discriminate|].
    apply in_map_iff. exists (field, v). split; [reflexivity|].
    apply List.filter_In. simpl. now rewrite String.eqb_refl.
  - intros Hsome. split; [|reflexivity].
    destruct (existsb (fun e => String.eqb (fst e) field && isFile (snd e))
                body) eqn:E.
    + apply existsb_exists in E as ([n v] & Hin & Hnv). simpl in Hnv.
      apply andb_prop in Hnv as [Hn Hv]. apply String.eqb_eq in Hn. subst n.
      apply in_map_iff. exists (field, v). split; [reflexivity|].
      now apply List.filter_In.
    + exfalso. apply Hsome. intros v Hin.
      apply in_map_iff in Hin as ([n v'] & Hv & Hin). simpl in Hv. subst v'.
      apply List.filter_In in Hin as [Hin Hn]. simpl in Hn.
      destruct (isFile v) eqn:Hv; [|reflexivity].
      assert (Hex : existsb
                      (fun e => String.eqb (fst e) field && isFile (snd e))
                      body = true).
      { apply existsb_exists. exists (n, v). simpl. now rewrite Hn, Hv. }
      congruence.
Qed.

Lemma getAll_captions_of_field (body : FormData) (field : string)
    (fields : list string) :
  List.NoDup fields ->
  getAll (flat_map (captionsOf body) fields) (field +:+ "Captions") =
  if existsb (String.eqb field) fields
  then map (fun f => FString (toUSVString (caption f))) (filesOf body field)
  else [].
Proof.
  induction 1 as [|f fields Hfresh Hnd IH]; [reflexivity|].
  simpl. rewrite getAll_app, getAll_captionsOf, IH.
  destruct (String.eqb_spec (f +:+ "Captions") (field +:+ "Captions"))
    as [Heq|Hne].
  - apply append_cancel_r in Heq. subst f. rewrite String.eqb_refl. simpl.
    destruct (existsb (String.eqb field) fields) eqn:E.
    + apply existsb_exists in E as (x & Hin & Hx).
      apply String.eqb_eq in Hx. subst x. contradiction.
    + now rewrite app_nil_r.
  - destruct (String.eqb_spec field f) as [->|Hne']; [congruence|].
    reflexivity.
Qed.

Lemma getAll_captions_elsewhere (body : FormData) (name : string)
    (fields : list string) :
  (forall field, name = field +:+ "Captions" -> filesOf body field = []) ->
  getAll (flat_map (captionsOf body) fields) name = [].
Proof.
  intros Hname. induction fields as [|f fields IH]; [reflexivity|].
  simpl. rewrite getAll_app, getAll_captionsOf, IH.
  destruct (String.eqb_spec (f +:+ "Captions") name) as [Heq|Hne];
    [|reflexivity].
  now rewrite (Hname f (eq_sym Heq)).
Qed.

(** C4, as stated, fails on the code. In [part_000] a field named
    [mediaCaptions] that holds no file receives the caption of the file
    of [media]: its entries are modified. In the helper-plugin copy the
    captions are collected and dropped: the body is sent as it came, with
    no [mediaCaptions] entry for the files of [media]. *)
Lemma captions_field_counterexample :
  (existsb isFile (getAll uploadWithCaptionsField "mediaCaptions") = false /\
   getAll uploadWithCaptionsField "mediaCaptions"
   = [FString "typed by hand"] /\
   fst (requestBody (hostScript []) Part000
          (Some (BForm uploadWithCaptionsField)) false (st0 None))
   = Ok (Some (BForm (uploadWithCaptionsField
                      ++ [("mediaCaptions", FString "A cat")]))) /\
   getAll (appendCaptions uploadWithCaptionsField) "mediaCaptions"
   = [FString "typed by hand"; FString "A cat"])
  /\
  (existsb isFile (getAll upload "media") = true /\
   fst (requestBody (hostScript []) HelperPlugin (Some (BForm upload)) false
          (st0 None))
   = Ok (Some (BForm upload)) /\
   getAll upload "mediaCaptions" = []).
Proof. repeat split. Qed.

(** C4, amended. With [stringify = false] and a multipart body, the copy
    of [part_000] sends the body followed by one [<field>Captions] entry
    per file entry of each field that holds a file, fields in order of
    first occurrence, each entry holding the caption of the file as
    [append] converts it to a string. Every entry of the original body
    keeps its place. The entries named [<field>Captions] are those the
    body had under that name followed by the captions of the files of
    [field]; a name that is not the [<field>Captions] of a field holding
    a file has its entries unmodified. The helper-plugin copy leaves the
    body as it is. *)
Theorem appendCaptions_spec (body : FormData) :
  (forall h st,
     requestBody h Part000 (Some (BForm body)) false st
     = (Ok (Some (BForm (appendCaptions body))), st))
  /\ appendCaptions body
     = body ++ flat_map (captionsOf body) (fileFieldsOf body)
  /\ List.NoDup (fileFieldsOf body)
  /\ (forall field,
        In field (fileFieldsOf body) <->
        existsb isFile (getAll body field) = true)
  /\ (forall field,
        getAll (appendCaptions body) (field +:+ "Captions")
        = getAll body (field +:+ "Captions")
          ++ map (fun f => FString (toUSVString (caption f)))
                 (filesOf body field))
  /\ (forall name,
        (forall field, name = field +:+ "Captions" ->
                       existsb isFile (getAll body field) = false) ->
        getAll (appendCaptions body) name = getAll body name)
  /\ (forall h st,
        fst (requestBody h HelperPlugin (Some (BForm body)) false st)
        = Ok (Some (BForm body))).
Proof.
  assert (Hfiles : forall l, existsb isFile l = false <-> filesIn l = []).
  { intros l. rewrite filesIn_nil. split.
    - intros H v Hin. destruct (isFile v) eqn:E; [|reflexivity].
      assert (existsb isFile l = true)
        by (apply existsb_exists; now exists v).
      congruence.
    - intros H. destruct (existsb isFile l) eqn:E; [|reflexivity].
      apply existsb_exists in E as (v & Hin & Hv).
      rewrite (H v Hin) in Hv. discriminate. }
  split; [reflexivity|].
  split; [apply appendCaptions_appended|].
  split; [apply dedupe_NoDup|].
  split; [|split; [|split]].
  - intros field. rewrite fileFieldsOf_In. unfold filesOf.
    rewrite <- Hfiles. now destruct (existsb isFile (getAll body field)).
  - intros field. rewrite appendCaptions_appended, getAll_app. f_equal.
    rewrite getAll_captions_of_field by apply dedupe_NoDup.
    destruct (existsb (String.eqb field) (fileFieldsOf body)) eqn:E;
      [reflexivity|].
    assert (Hnone : filesOf body field = []).
    { destruct (filesOf body field) eqn:Hf; [reflexivity|].
      assert (Hin : In field (fileFieldsOf body)).
      { apply fileFieldsOf_In. now rewrite Hf. }
      assert (existsb (String.eqb field) (fileFieldsOf body) = true).
      { apply existsb_exists. exists field. now rewrite String.eqb_refl. }
      congruence. }
    now rewrite Hnone.
  - intros name Hname.
    rewrite appendCaptions_appended, getAll_app.
    rewrite getAll_captions_elsewhere; [now rewrite app_nil_r|].
    intros field Hf. apply Hfiles. now apply Hname.
  - intros h st. simpl. now rewrite collectCaptions_id.
Qed.

Example upload_captions :
  appendCaptions upload
  = upload ++ [("mediaCaptions", FString "A cat");
               ("mediaCaptions", FString "undefined")].
Proof. reflexivity. Qed.

(** * Further properties of the request helper *)

(** ** What the state keeps through a run *)

Section Runs.

Variable h : Host.

Lemma watcher_state (v : Value) (fuel : nat) :
  forall st : State,
  token (snd (serverRestartWatcher h fuel v st)) = token st /\
  location (snd (serverRestartWatcher h fuel v st)) = location st /\
  (fst (serverRestartWatcher h fuel v st) = Pending ->
   locked (snd (serverRestartWatcher h fuel v st)) = locked st /\
   fetches (snd (serverRestartWatcher h fuel v st)) = (fetches st + fuel)%nat) /\
  (forall x, fst (serverRestartWatcher h fuel v st) = Fulfilled x ->
   locked (snd (serverRestartWatcher h fuel v st)) = false /\ x = v).
Proof.
  induction fuel as [|fuel IH]; intros st.
  - simpl. split; [reflexivity|]. split; [reflexivity|]. split.
    + intros _. split; [reflexivity | lia].
    + intros x Hx. discriminate Hx.
  - destruct (net h (fetches st) (healthURL h) healthOptions)
      as [hr|reason] eqn:E.
    + rewrite (watcher_resolves h v hr) by assumption. simpl.
      split; [reflexivity|]. split; [reflexivity|]. split.
      * intros HP. discriminate HP.
      * intros x Hx. split; [reflexivity | congruence].
    + rewrite (watcher_retries h v reason) by assumption.
      destruct (IH {| token := token st; location := location st;
                      locked := locked st; fetches := S (fetches st);
                      trace := trace st ++
                               [EFetch (healthURL h) healthOptions;
                                ESetTimeout 100] |})
        as (Ht & Hl & Hp & Hf).
      simpl in *.
      split; [assumption|]. split; [assumption|]. split.
      * intros HP. destruct (Hp HP) as [Hlk Hn].
        split; [assumption|]. rewrite Hn. lia.
      * intros x Hx. now apply Hf.
Qed.

Lemma request_first_fetch_from (rev : Revision) (url : string)
    (options : Options) (watch stringify : bool) (fuel : nat) (st : State)
    (body' : option Body) :
  fst (requestBody h rev (body options) stringify st) = Ok body' ->
  exists rest,
    trace (snd (request h rev url options watch stringify fuel st)) =
    trace (snd (requestBody h rev (body options) stringify st)) ++
    EFetch (dispatchURL h url options) (dispatchOptions st options body')
    :: rest.
Proof.
  intros H. rewrite (request_dispatch _ _ _ _ _ _ _ _ _ H).
  destruct (respond_extends h
              match net h (fetches st) (dispatchURL h url options)
                        (dispatchOptions st options body') with
              | FResolve r => Fulfilled r
              | FReject reason => Rejected (External reason)
              end watch fuel
              (dispatched h rev url options stringify st body'))
    as [rest Hrest].
  destruct (respond h _ watch fuel _) as [p st'].
  exists rest. cbn [snd] in *. rewrite Hrest.
  unfold dispatched, fetched. cbn [trace].
  now rewrite <- app_assoc.
Qed.

End Runs.

(** ** Failures before and at the fetch *)

(** A failure of the network is passed on as it is: when the fetch of
    [request] rejects, the promise rejects with the same reason, and
    nothing follows the fetch, neither a revalidation nor the restart
    watch. *)
Theorem request_network_failure (h : Host) (rev : Revision) (url : string)
    (options : Options) (watch stringify : bool) (fuel : nat) (st : State)
    (body' : option Body) (reason : string) :
  fst (requestBody h rev (body options) stringify st) = Ok body' ->
  net h (fetches st) (dispatchURL h url options)
      (dispatchOptions st options body') = FReject reason ->
  request h rev url options watch stringify fuel st =
  (ReturnPromise (Rejected (External reason)),
   dispatched h rev url options stringify st body').
Proof.
  intros Hbody Hnet.
  rewrite (request_dispatch h _ _ _ _ _ _ _ _ Hbody), Hnet.
  now rewrite respond_rejected.
Qed.

Lemma request_network_failure_witness :
  fst (requestBody hostDown Part000 (body noOptions) true (st0 (Some "jwt")))
  = Ok None
  /\ net hostDown (fetches (st0 (Some "jwt")))
         (dispatchURL hostDown "/users" noOptions)
         (dispatchOptions (st0 (Some "jwt")) noOptions None)
     = FReject "Failed to fetch"
  /\ request hostDown Part000 "/users" noOptions true true 3
             (st0 (Some "jwt"))
     = (ReturnPromise (Rejected (External "Failed to fetch")),
        dispatched hostDown Part000 "/users" noOptions true
                   (st0 (Some "jwt")) None).
Proof.
  split; [reflexivity|]. split; [reflexivity|].
  exact (request_network_failure hostDown Part000 "/users" noOptions true
           true 3 (st0 (Some "jwt")) None "Failed to fetch" eq_refl eq_refl).
Defined.

(** With [stringify = false], a body that is neither a [FormData] nor an
    array has no [entries]: a truthy string, number, boolean or plain
    object makes [request] throw a [TypeError] before anything is
    fetched, in both copies, and the state is left as it was. *)
Theorem request_throws_on_plain_body (h : Host) (rev : Revision)
    (url : string) (options : Options) (watch : bool) (fuel : nat)
    (st : State) (j : Json) :
  body options = Some (BJson j) ->
  truthy j = true ->
  (forall l, j <> JArr l) ->
  request h rev url options watch false fuel st =
  (Throw (TypeError "options.body.entries is not a function"), st).
Proof.
  intros Hb Ht Harr.
  assert (Hbody : requestBody h rev (body options) false st =
                  (Raise (TypeError "options.body.entries is not a function"),
                   st)).
  { rewrite Hb. unfold requestBody, bodyTruthy. rewrite Ht.
    cbn [andb]. unfold bind, multipart, ret.
    destruct j as [| | | |l|]; try reflexivity.
    now destruct (Harr l). }
  rewrite (request_throws h rev url options watch false fuel st
             (TypeError "options.body.entries is not a function"));
    now rewrite Hbody.
Qed.

Lemma request_throws_on_plain_body_witness :
  body {| method := Some "POST"; mode := None; headers := None;
          body := Some (BJson jsonBody); params := None |}
  = Some (BJson jsonBody)
  /\ truthy jsonBody = true
  /\ (forall l, jsonBody <> JArr l)
  /\ request hostDown HelperPlugin "/upload"
       {| method := Some "POST"; mode := None; headers := None;
          body := Some (BJson jsonBody); params := None |}
       false false 0 (st0 None)
     = (Throw (TypeError "options.body.entries is not a function"), st0 None).
Proof.
  assert (Harr : forall l, jsonBody <> JArr l) by (intros l; discriminate).
  split; [reflexivity|]. split; [reflexivity|]. split; [exact Harr|].
  exact (request_throws_on_plain_body hostDown HelperPlugin "/upload"
           {| method := Some "POST"; mode := None; headers := None;
              body := Some (BJson jsonBody); params := None |}
           false 0 (st0 None) jsonBody eq_refl eq_refl Harr).
Defined.

(** With [stringify = true] a plain object is sent as its JSON text, and
    a [FormData] as the text of an object without properties. *)
Example stringify_sample :
  fst (requestBody (hostScript []) Part000 (Some (BJson jsonBody)) true
                   (st0 None))
  = Ok (Some (BJson (JStr (String "{"
                             (String (ascii_of_N 34)
                                (String "a"
                                   (String (ascii_of_N 34) ":1}")))))))
  /\ fst (requestBody (hostScript []) Part000 (Some (BForm upload)) true
                      (st0 None))
     = Ok (Some (BJson (JStr "{}"))).
Proof. split; reflexivity. Qed.

(** ** Revalidation, session and lock along a run *)

Section Session.

Variable h : Host.

Lemma revalidates_true (r : Response) (st : State) :
  revalidates r st true = true ->
  status r = 401 /\ truthyStr (token st) = true.
Proof.
  unfold revalidates. intros H.
  apply andb_prop in H as [H _]. apply andb_prop in H as [Hs Ht].
  apply Z.eqb_eq in Hs. now split.
Qed.

Lemma respond_fetches (p : Promise Response) (fuel : nat) (st : State) :
  (fetches st <= fetches (snd (respond h p false fuel st)) <= fetches st + 1)%nat
  /\ (truthyStr (token st) = false ->
      fetches (snd (respond h p false fuel st)) = fetches st).
Proof.
  destruct p as [|r|e]; try (simpl; split; [lia | reflexivity]).
  destruct (inRange r) eqn:Hin.
  - rewrite respond_in_range by assumption.
    destruct (settle (parseJSON (Some r))); simpl; split; (lia || reflexivity).
  - destruct (revalidates r st true) eqn:Hrev.
    + apply revalidates_true in Hrev as [Hs Ht].
      rewrite respond_revalidate by assumption.
      destruct (net h (fetches st) _ _); simpl; split; (lia || congruence).
    + rewrite respond_error by assumption. simpl.
      split; [lia | reflexivity].
Qed.

Lemma respond_session (p : Promise Response) (watch : bool) (fuel : nat)
    (st : State) :
  (forall r, p = Fulfilled r -> revalidates r st true = false) ->
  token (snd (respond h p watch fuel st)) = token st /\
  location (snd (respond h p watch fuel st)) = location st.
Proof.
  intros Hno. destruct p as [|r|e]; try (split; reflexivity).
  specialize (Hno r eq_refl).
  destruct (inRange r) eqn:Hin.
  - rewrite respond_in_range by assumption.
    destruct (settle (parseJSON (Some r))) as [|v|e]; try (split; reflexivity).
    destruct watch; [|split; reflexivity].
    destruct (watcher_state h v fuel (snd (lockApp st))) as (Ht & Hl & _).
    destruct (serverRestartWatcher h fuel v (snd (lockApp st))) as [w st'].
    simpl in *. now split.
  - rewrite respond_error by assumption. split; reflexivity.
Qed.

Lemma console_logs_quiet (logs : list Event) :
  forallb isConsoleLog logs = true -> List.filter isWatch logs = [].
Proof.
  induction logs as [|e logs IH]; [reflexivity|]. simpl.
  intros H. apply andb_prop in H as [He Hl].
  destruct e; try discriminate. simpl. now apply IH.
Qed.

Lemma respond_quiet (p : Promise Response) (watch : bool) (fuel : nat)
    (st : State) :
  watch = false \/ (exists e, fst (respond h p watch fuel st) = Rejected e) ->
  locked (snd (respond h p watch fuel st)) = locked st /\
  exists rest,
    trace (snd (respond h p watch fuel st)) = trace st ++ rest /\
    List.filter isWatch rest = [].
Proof.
  intros Hq.
  assert (Hnil : locked st = locked st /\
                 exists rest, trace st = trace st ++ rest /\
                              List.filter isWatch rest = []).
  { split; [reflexivity|]. exists []. now rewrite app_nil_r. }
  destruct p as [|r|e]; try exact Hnil.
  destruct (inRange r) eqn:Hin.
  - rewrite respond_in_range in * by assumption.
    destruct (settle (parseJSON (Some r))) as [|v|e]; try exact Hnil.
    destruct watch; [|exact Hnil].
    destruct Hq as [Hq|[e He]]; [discriminate|].
    pose proof (watcher_never_rejects h v fuel (snd (lockApp st)) e) as Hnr.
    destruct (serverRestartWatcher h fuel v (snd (lockApp st))) as [w st'].
    simpl in *. contradiction.
  - destruct (revalidates r st true) eqn:Hrev.
    + apply revalidates_true in Hrev as [Hs Ht].
      rewrite respond_revalidate by assumption.
      destruct (net h (fetches st) _ _); simpl;
        (split; [reflexivity|]); eexists; (split; [reflexivity|]); reflexivity.
    + rewrite respond_error by assumption. exact Hnil.
Qed.

Lemma console_logs_no_signal (logs : list Event) :
  forallb isConsoleLog logs = true ->
  List.filter (fun e => isLock e || isUnlock e) logs = [].
Proof.
  induction logs as [|e logs IH]; [reflexivity|]. simpl.
  intros H. apply andb_prop in H as [He Hl].
  destruct e; try discriminate. simpl. now apply IH.
Qed.

Lemma watcher_signals (v : Value) (fuel : nat) :
  forall (st : State) (x : Value),
  fst (serverRestartWatcher h fuel v st) = Fulfilled x ->
  exists rest,
    trace (snd (serverRestartWatcher h fuel v st)) = trace st ++ rest /\
    List.filter (fun e => isLock e || isUnlock e) rest = [EUnlockApp].
Proof.
  induction fuel as [|fuel IH]; intros st x Hx; [discriminate Hx|].
  destruct (net h (fetches st) (healthURL h) healthOptions)
    as [hr|reason] eqn:E.
  - rewrite (watcher_resolves h v hr) by assumption. simpl.
    eexists. split; reflexivity.
  - rewrite (watcher_retries h v reason) in * by assumption.
    destruct (IH _ x Hx) as (rest & Hr & Hf).
    rewrite Hr. simpl. rewrite <- app_assoc.
    eexists. split; [reflexivity|]. simpl. exact Hf.
Qed.

Lemma respond_signals (p : Promise Response) (fuel : nat) (st : State)
    (x : Value) :
  fst (respond h p true fuel st) = Fulfilled x ->
  locked (snd (respond h p true fuel st)) = false /\
  exists rest,
    trace (snd (respond h p true fuel st)) = trace st ++ rest /\
    List.filter (fun e => isLock e || isUnlock e) rest
    = [ELockApp; EUnlockApp].
Proof.
  destruct p as [|r|e]; try discriminate.
  destruct (inRange r) eqn:Hin.
  - rewrite respond_in_range by assumption.
    destruct (settle (parseJSON (Some r))) as [|v|e]; try discriminate.
    pose proof (watcher_signals v fuel (snd (lockApp st))) as Hs.
    destruct (watcher_state h v fuel (snd (lockApp st))) as (_ & _ & _ & HF).
    destruct (serverRestartWatcher h fuel v (snd (lockApp st))) as [w st'].
    simpl in *. intros Hx. subst w.
    destruct (Hs x eq_refl) as (rest & Hr & Hf).
    split; [exact (proj1 (HF x eq_refl))|].
    exists (ELockApp :: rest). split.
    + rewrite Hr, <- app_assoc. reflexivity.
    + simpl. now rewrite Hf.
  - destruct (revalidates r st true) eqn:Hrev.
    + apply revalidates_true in Hrev as [Hs Ht].
      rewrite respond_revalidate by assumption.
      destruct (net h (fetches st) _ _); discriminate.
    + rewrite respond_error by assumption. discriminate.
Qed.

End Session.

Lemma request_quiet (h : Host) (rev : Revision) (url : string)
    (options : Options) (watch stringify : bool) (fuel : nat) (st : State) :
  watch = false \/
  (exists e, fst (request h rev url options watch stringify fuel st)
             = ReturnPromise (Rejected e)) \/
  (exists e, fst (request h rev url options watch stringify fuel st)
             = Throw e) ->
  locked (snd (request h rev url options watch stringify fuel st)) = locked st
  /\ exists rest,
       trace (snd (request h rev url options watch stringify fuel st))
       = trace st ++ rest /\
       List.filter isWatch rest = [].
Proof.
  intros Hq.
  destruct (requestBody_state h rev (body options) stringify st)
    as (_ & _ & Hlk & _ & logs & Hlogs & Htrace).
  destruct (fst (requestBody h rev (body options) stringify st))
    as [body'|e] eqn:Hbody.
  - rewrite (request_dispatch h _ _ _ _ _ _ _ _ Hbody) in *.
    set (p := match net h (fetches st) (dispatchURL h url options)
                        (dispatchOptions st options body') with
              | FResolve r => Fulfilled r
              | FReject reason => Rejected (External reason)
              end) in *.
    set (st1 := dispatched h rev url options stringify st body') in *.
    assert (Hq' : watch = false \/
                  exists e, fst (respond h p watch fuel st1) = Rejected e).
    { destruct Hq as [Hq|[[e He]|[e He]]]; [now left | right | exfalso];
        destruct (respond h p watch fuel st1) as [q st']; simpl in *.
      - exists e. congruence.
      - discriminate. }
    destruct (respond_quiet h p watch fuel st1 Hq') as (Hl & rest & Ht & Hf).
    destruct (respond h p watch fuel st1) as [q st']. simpl in *.
    split; [now rewrite Hl|].
    exists (logs ++ EFetch (dispatchURL h url options)
                      (dispatchOptions st options body') :: rest).
    split.
    + rewrite Ht. unfold st1, dispatched, fetched. cbn [trace].
      rewrite Htrace, <- !app_assoc. reflexivity.
    + rewrite List.filter_app, (console_logs_quiet logs Hlogs). simpl.
      exact Hf.
  - rewrite (request_throws h rev url options watch stringify fuel st e Hbody).
    simpl. split; [assumption|].
    exists logs. split; [assumption | now apply console_logs_quiet].
Qed.

(** Without the restart watch a call issues at most two fetches: its own
    and, on a 401 with a stored token, the one call to the current-user
    endpoint; the revalidation never repeats. Without a (truthy) token it
    issues at most one. *)
Theorem request_fetches_at_most_twice (h : Host) (rev : Revision)
    (url : string) (options : Options) (stringify : bool) (fuel : nat)
    (st : State) :
  (fetches st
   <= fetches (snd (request h rev url options false stringify fuel st))
   <= fetches st + 2)%nat
  /\ (truthyStr (token st) = false ->
      (fetches (snd (request h rev url options false stringify fuel st))
       <= fetches st + 1)%nat).
Proof.
  destruct (requestBody_state h rev (body options) stringify st)
    as (Htok & _ & _ & Hn & _).
  destruct (fst (requestBody h rev (body options) stringify st))
    as [body'|e] eqn:Hbody.
  - rewrite (request_dispatch h _ _ _ _ _ _ _ _ Hbody).
    set (p := match net h (fetches st) (dispatchURL h url options)
                        (dispatchOptions st options body') with
              | FResolve r => Fulfilled r
              | FReject reason => Rejected (External reason)
              end).
    pose proof (respond_fetches h p fuel
                  (dispatched h rev url options stringify st body'))
      as [Hb Hz].
    rewrite dispatched_fetches, dispatched_token in *.
    destruct (respond h p false fuel _) as [q st']. simpl in *.
    split; [lia|]. intros Ht. rewrite (Hz Ht). lia.
  - rewrite (request_throws h rev url options false stringify fuel st e Hbody).
    simpl. rewrite Hn. split; [lia|]. intros _. lia.
Qed.

(** With the restart watch on, the overlay follows the outcome of the
    call. When its promise is fulfilled, [lockApp] and [unlockApp] have
    been called once each, in that order, and the application is left
    unlocked. When the call throws or its promise rejects, the lock was
    never touched: no [lockApp], no [unlockApp], no timer. *)
Theorem restart_watch_lock (h : Host) (rev : Revision) (url : string)
    (options : Options) (stringify : bool) (fuel : nat) (st : State) :
  match fst (request h rev url options true stringify fuel st) with
  | ReturnPromise (Fulfilled _) =>
      locked (snd (request h rev url options true stringify fuel st)) = false
      /\
      exists rest,
        trace (snd (request h rev url options true stringify fuel st))
        = trace st ++ rest /\
        List.filter (fun e => isLock e || isUnlock e) rest
        = [ELockApp; EUnlockApp]
  | ReturnPromise (Rejected _) | Throw _ =>
      locked (snd (request h rev url options true stringify fuel st))
      = locked st /\
      exists rest,
        trace (snd (request h rev url options true stringify fuel st))
        = trace st ++ rest /\
        List.filter isWatch rest = []
  | _ => True
  end.
Proof.
  pose proof (request_quiet h rev url options true stringify fuel st) as Hq.
  destruct (requestBody_state h rev (body options) stringify st)
    as (_ & _ & _ & _ & logs & Hlogs & Htrace).
  destruct (fst (requestBody h rev (body options) stringify st))
    as [body'|e] eqn:Hbody.
  - rewrite (request_dispatch h _ _ _ _ _ _ _ _ Hbody) in *.
    set (p := match net h (fetches st) (dispatchURL h url options)
                        (dispatchOptions st options body') with
              | FResolve r => Fulfilled r
              | FReject reason => Rejected (External reason)
              end) in *.
    pose proof (respond_signals h p fuel
                  (dispatched h rev url options stringify st body')) as Hs.
    destruct (respond h p true fuel _) as [[|v|e] st']; simpl in *.
    + exact I.
    + destruct (Hs v eq_refl) as (Hl & rest & Ht & Hf).
      split; [exact Hl|].
      exists (logs ++ EFetch (dispatchURL h url options)
                        (dispatchOptions st options body') :: rest).
      split.
      * rewrite Ht. unfold dispatched, fetched. cbn [trace].
        rewrite Htrace, <- !app_assoc. reflexivity.
      * rewrite List.filter_app, (console_logs_no_signal logs Hlogs). simpl.
        exact Hf.
    + apply Hq. right. left. now exists e.
  - rewrite (request_throws h rev url options true stringify fuel st e Hbody)
      in *.
    simpl in *. apply Hq. right. right. now exists e.
Qed.

(** Without the restart watch the lock is never touched and no timer is
    set, whatever the outcome of the call: the application is locked
    after it exactly when it was before, and its events hold no
    [lockApp], no [unlockApp] and no [setTimeout]. *)
Theorem request_without_watch_is_quiet (h : Host) (rev : Revision)
    (url : string) (options : Options) (stringify : bool) (fuel : nat)
    (st : State) :
  locked (snd (request h rev url options false stringify fuel st)) = locked st
  /\ exists rest,
       trace (snd (request h rev url options false stringify fuel st))
       = trace st ++ rest /\
       List.filter isWatch rest = [].
Proof.
  destruct (requestBody_state h rev (body options) stringify st)
    as (_ & _ & Hlk & _ & logs & Hlogs & Htrace).
  destruct (fst (requestBody h rev (body options) stringify st))
    as [body'|e] eqn:Hbody.
  - rewrite (request_dispatch h _ _ _ _ _ _ _ _ Hbody).
    set (p := match net h (fetches st) (dispatchURL h url options)
                        (dispatchOptions st options body') with
              | FResolve r => Fulfilled r
              | FReject reason => Rejected (External reason)
              end).
    destruct (respond_quiet h p false fuel
                (dispatched h rev url options stringify st body')
                (or_introl eq_refl)) as (Hl & rest & Ht & Hf).
    destruct (respond h p false fuel _) as [q st']. simpl in *.
    split; [now rewrite Hl|].
    exists (logs ++ EFetch (dispatchURL h url options)
                      (dispatchOptions st options body') :: rest).
    split.
    + rewrite Ht. unfold dispatched, fetched. cbn [trace].
      rewrite Htrace, <- !app_assoc. reflexivity.
    + rewrite List.filter_app, (console_logs_quiet logs Hlogs). simpl.
      exact Hf.
  - rewrite (request_throws h rev url options false stringify fuel st e Hbody).
    simpl. split; [assumption|].
    exists logs. split; [assumption | now apply console_logs_quiet].
Qed.

(** The watcher never gives up: as long as the health checks fail it
    polls again, 100 ms after each failure, and its promise stays
    pending; after [n] failures it has issued [n] requests of method HEAD
    (mode [no-cors], headers [Content-Type: application/json] and
    [Keep-Alive: false], no body) to [<backendURL>/_health], each
    followed by a timer of 100 ms, and nothing else; the lock, the token
    and the location are as they were. *)
Theorem watcher_retries_forever (h : Host) (response : Value) (n : nat) :
  let head :=
    {| method := Some "HEAD"; mode := Some "no-cors";
       headers := Some {[ "Content-Type" := HStr "application/json";
                          "Keep-Alive" := HBool false ]};
       body := None; params := None |} in
  forall st : State,
  (forall i, (i < n)%nat ->
     exists reason,
       net h (fetches st + i) (backendURL h +:+ "/_health") head
       = FReject reason) ->
  serverRestartWatcher h n response st =
  (Pending,
   {| token := token st; location := location st; locked := locked st;
      fetches := fetches st + n;
      trace := trace st ++
               List.concat
                 (replicate n [EFetch (backendURL h +:+ "/_health") head;
                               ESetTimeout 100]) |}).
Proof.
  intros head. unfold head. rewrite <- failedPolls_replicate.
  induction n as [|n IH]; intros st Hfail.
  - simpl. unfold ret. destruct st. simpl.
    now rewrite Nat.add_0_r, app_nil_r.
  - destruct (Hfail O ltac:(lia)) as [reason Hr].
    rewrite Nat.add_0_r in Hr.
    rewrite (watcher_retries h response reason) by assumption.
    rewrite IH.
    + simpl. rewrite <- app_assoc. simpl. f_equal. f_equal. lia.
    + intros i Hi. destruct (Hfail (S i) ltac:(lia)) as [e He].
      exists e. simpl. now rewrite <- Nat.add_succ_r.
Qed.

Lemma watcher_retries_forever_witness :
  (forall i, (i < 2)%nat ->
     exists reason,
       net hostDown (fetches (st0 None) + i)
           (backendURL hostDown +:+ "/_health")
           {| method := Some "HEAD"; mode := Some "no-cors";
              headers := Some {[ "Content-Type" := HStr "application/json";
                                 "Keep-Alive" := HBool false ]};
              body := None; params := None |}
       = FReject reason)
  /\ serverRestartWatcher hostDown 2 (VJson JNull) (st0 None) =
     (Pending,
      {| token := None; location := None; locked := false; fetches := 2;
         trace :=
           [EFetch "http://localhost:1337/_health"
              {| method := Some "HEAD"; mode := Some "no-cors";
                 headers := Some {[ "Content-Type" := HStr "application/json";
                                    "Keep-Alive" := HBool false ]};
                 body := None; params := None |};
            ESetTimeout 100;
            EFetch "http://localhost:1337/_health"
              {| method := Some "HEAD"; mode := Some "no-cors";
                 headers := Some {[ "Content-Type" := HStr "application/json";
                                    "Keep-Alive" := HBool false ]};
                 body := None; params := None |};
            ESetTimeout 100] |}).
Proof.
  assert (Hfail : forall i, (i < 2)%nat ->
            exists reason,
              net hostDown (fetches (st0 None) + i)
                  (backendURL hostDown +:+ "/_health")
                  {| method := Some "HEAD"; mode := Some "no-cors";
                     headers :=
                       Some {[ "Content-Type" := HStr "application/json";
                               "Keep-Alive" := HBool false ]};
                     body := None; params := None |}
              = FReject reason).
  { intros i _. exists "Failed to fetch". simpl. now destruct i. }
  split; [exact Hfail|].
  exact (watcher_retries_forever hostDown (VJson JNull) 2 (st0 None) Hfail).
Defined.

Lemma request_anonymous (h : Host) (rev : Revision) (url : string)
    (options : Options) (watch stringify : bool) (fuel : nat) (st : State) :
  truthyStr (token st) = false ->
  token (snd (request h rev url options watch stringify fuel st)) = token st
  /\ location (snd (request h rev url options watch stringify fuel st))
     = location st
  /\ (fetches (snd (request h rev url options false stringify fuel st))
      <= fetches st + 1)%nat.
Proof.
  intros Hf.
  destruct (requestBody_state h rev (body options) stringify st)
    as (Htok & Hloc & _ & Hn & _).
  destruct (fst (requestBody h rev (body options) stringify st))
    as [body'|e] eqn:Hbody.
  - rewrite !(request_dispatch h _ _ _ _ _ _ _ _ Hbody).
    set (p := match net h (fetches st) (dispatchURL h url options)
                        (dispatchOptions st options body') with
              | FResolve r => Fulfilled r
              | FReject reason => Rejected (External reason)
              end).
    set (st1 := dispatched h rev url options stringify st body').
    assert (Ht1 : token st1 = token st)
      by (unfold st1; apply dispatched_token).
    assert (Hl1 : location st1 = location st).
    { unfold st1, dispatched, fetched. simpl. exact Hloc. }
    destruct (respond_session h p watch fuel st1) as [Ht Hl].
    { intros r _. unfold revalidates. rewrite Ht1, Hf.
      now rewrite andb_false_r. }
    destruct (respond_fetches h p fuel st1) as [_ Hz].
    rewrite Ht1 in Hz. specialize (Hz Hf).
    unfold st1 in Hz at 2. rewrite dispatched_fetches in Hz.
    destruct (respond h p watch fuel st1) as [q st'].
    destruct (respond h p false fuel st1) as [q0 st0'].
    simpl in *. split; [congruence|]. split; [congruence | lia].
  - rewrite !(request_throws h rev url options _ stringify fuel st e Hbody).
    simpl. split; [assumption|]. split; [assumption | lia].
Qed.

(** A call logs the user out only on a 401 received while a token is
    stored: in every other run (another status, no token, a failure of
    the network, a body that makes it throw, with or without the restart
    watch) the token store and the location of the window are left as
    they were. *)
Theorem request_keeps_session (h : Host) (rev : Revision) (url : string)
    (options : Options) (watch stringify : bool) (fuel : nat) (st : State) :
  (forall body' r,
     receives h rev url options stringify st body' r ->
     status r <> 401 \/ truthyStr (token st) = false) ->
  token (snd (request h rev url options watch stringify fuel st)) = token st
  /\ location (snd (request h rev url options watch stringify fuel st))
     = location st.
Proof.
  intros Hno.
  destruct (requestBody_state h rev (body options) stringify st)
    as (Htok & Hloc & _).
  destruct (fst (requestBody h rev (body options) stringify st))
    as [body'|e] eqn:Hbody.
  - rewrite (request_dispatch h _ _ _ _ _ _ _ _ Hbody).
    set (st1 := dispatched h rev url options stringify st body').
    assert (Hst1 : token st1 = token st /\ location st1 = location st).
    { unfold st1, dispatched, fetched. simpl. now split. }
    destruct Hst1 as [Ht1 Hl1].
    destruct (net h (fetches st) (dispatchURL h url options)
                  (dispatchOptions st options body')) as [r|reason] eqn:Hnet.
    + destruct (respond_session h (Fulfilled r) watch fuel st1) as [Ht Hl].
      { intros r' Hr'. injection Hr' as <-.
        unfold revalidates. rewrite Ht1.
        destruct (Hno body' r (conj Hbody Hnet)) as [Hs|Hf].
        - destruct (Z.eqb_spec (status r) 401); [contradiction | reflexivity].
        - rewrite Hf. now rewrite andb_false_r. }
      destruct (respond h (Fulfilled r) watch fuel st1) as [q st'].
      simpl in *. split; congruence.
    + rewrite respond_rejected. simpl. now split.
  - rewrite (request_throws h rev url options watch stringify fuel st e Hbody).
    simpl. now split.
Qed.

Lemma request_keeps_session_witness :
  (forall body' r,
     receives (hostScript [FResolve notFound]) Part000 "/users" noOptions true
              (st0 (Some "jwt")) body' r ->
     status r <> 401 \/ truthyStr (token (st0 (Some "jwt"))) = false)
  /\ token (snd (request (hostScript [FResolve notFound]) Part000 "/users"
                         noOptions true true 2 (st0 (Some "jwt"))))
     = token (st0 (Some "jwt"))
  /\ location (snd (request (hostScript [FResolve notFound]) Part000 "/users"
                            noOptions true true 2 (st0 (Some "jwt"))))
     = location (st0 (Some "jwt")).
Proof.
  assert (Hno : forall body' r,
            receives (hostScript [FResolve notFound]) Part000 "/users"
                     noOptions true (st0 (Some "jwt")) body' r ->
            status r <> 401 \/ truthyStr (token (st0 (Some "jwt"))) = false).
  { intros body' r [_ Hnet]. left. simpl in Hnet.
    injection Hnet as <-. discriminate. }
  split; [exact Hno|].
  exact (request_keeps_session (hostScript [FResolve notFound]) Part000
           "/users" noOptions true true 2 (st0 (Some "jwt")) Hno).
Defined.

Lemma requestHeaders_falsy (tok : option string) (options : Options) :
  truthyStr tok = false ->
  requestHeaders tok options =
  match headers options with
  | Some caller => caller
  | None => forwardedHost ∪ contentTypeJson
  end.
Proof.
  intros Ht. destruct (headers options) as [caller|] eqn:Hh.
  - now rewrite (requestHeaders_present _ _ _ Hh), Ht.
  - now rewrite (requestHeaders_absent _ _ Hh), Ht.
Qed.

(** A token store that yields [null] or the empty string is a store
    without a token: no [Authorization] header is injected, and the fetch
    is given the caller's headers as they are, or the two defaults when
    the caller gave none. *)
Theorem request_without_token (h : Host) (rev : Revision) (url : string)
    (options : Options) (watch stringify : bool) (fuel : nat) (st : State)
    (body' : option Body) :
  fst (requestBody h rev (body options) stringify st) = Ok body' ->
  truthyStr (token st) = false ->
  exists logs rest,
    forallb isConsoleLog logs = true /\
    trace (snd (request h rev url options watch stringify fuel st)) =
      trace st ++ logs ++
      EFetch (dispatchURL h url options)
        {| method := method options; mode := mode options;
           headers :=
             Some match headers options with
                  | Some caller => caller
                  | None => {[ "X-Forwarded-Host" := HStr "strapi" ]}
                            ∪ {[ "Content-Type" := HStr "application/json" ]}
                  end;
           body := body'; params := params options |} :: rest.
Proof.
  intros Hbody Ht.
  destruct (request_first_fetch h rev url options watch stringify fuel st
              body' Hbody) as (logs & rest & Hlogs & Htrace).
  exists logs, rest. split; [assumption|].
  rewrite Htrace. unfold dispatchOptions, requestOptions.
  now rewrite (requestHeaders_falsy _ _ Ht).
Qed.

Lemma request_without_token_witness :
  fst (requestBody hostDown Part000 (body callerOptions) true (st0 (Some "")))
  = Ok None
  /\ truthyStr (token (st0 (Some ""))) = false
  /\ exists logs rest,
       forallb isConsoleLog logs = true /\
       trace (snd (request hostDown Part000 "/users" callerOptions false true
                           0 (st0 (Some "")))) =
         trace (st0 (Some "")) ++ logs ++
         EFetch (dispatchURL hostDown "/users" callerOptions)
           {| method := method callerOptions; mode := mode callerOptions;
              headers :=
                Some match headers callerOptions with
                     | Some caller => caller
                     | None =>
                         {[ "X-Forwarded-Host" := HStr "strapi" ]}
                         ∪ {[ "Content-Type" := HStr "application/json" ]}
                     end;
              body := None; params := params callerOptions |} :: rest.
Proof.
  split; [reflexivity|]. split; [reflexivity|].
  exact (request_without_token hostDown Part000 "/users" callerOptions false
           true 0%nat (st0 (Some "")) None eq_refl eq_refl).
Defined.

(** Two calls in a row. Once a call has gone through the revalidation
    of a 401 with the call to the current-user endpoint resolved, the
    store is empty and the window is on the login page; whatever call
    comes next, with or without the restart watch, injects no
    [Authorization] header and leaves store and location as the first
    call left them. A next call made without the restart watch issues
    one fetch at most: a second 401 is not revalidated again. (With the
    restart watch the next call may go on to poll the health endpoint,
    and no bound on its fetches is stated.) *)
Theorem request_after_logout (h : Host) (rev : Revision) (url : string)
    (options : Options) (watch stringify : bool) (fuel : nat) (st : State)
    (body' : option Body) (r u : Response) (tok : string) :
  receives h rev url options stringify st body' r ->
  status r = 401 ->
  token st = Some tok ->
  truthyStr (token st) = true ->
  net h (S (fetches st)) (backendURL h +:+ "/user/me")
      {| method := Some "GET"; mode := None;
         headers := Some {[ "Content-Type" := HStr "application/json";
                            "Authorization" := HStr ("Bearer " +:+ tok) ]};
         body := None; params := None |} = FResolve u ->
  let st2 := snd (request h rev url options watch stringify fuel st) in
  let login := remoteURL h +:+ "/plugins/users-permissions/auth/login" in
  token st2 = None /\
  location st2 = Some login /\
  forall rev' url' options' watch' stringify' fuel',
    token (snd (request h rev' url' options' watch' stringify' fuel' st2))
    = None /\
    location (snd (request h rev' url' options' watch' stringify' fuel' st2))
    = Some login /\
    (fetches (snd (request h rev' url' options' false stringify' fuel' st2))
     <= fetches st2 + 1)%nat /\
    forall body'',
      fst (requestBody h rev' (body options') stringify' st2) = Ok body'' ->
      exists logs rest,
        forallb isConsoleLog logs = true /\
        trace (snd (request h rev' url' options' watch' stringify' fuel' st2))
        = trace st2 ++ logs ++
          EFetch (dispatchURL h url' options')
            {| method := method options'; mode := mode options';
               headers :=
                 Some match headers options' with
                      | Some caller => caller
                      | None =>
                          {[ "X-Forwarded-Host" := HStr "strapi" ]}
                          ∪ {[ "Content-Type" := HStr "application/json" ]}
                      end;
               body := body''; params := params options' |} :: rest.
Proof.
  intros [Hbody Hnet] Hs Htok Ht Hme st2 login.
  set (st1 := dispatched h rev url options stringify st body').
  assert (Hopts : userMeOptions (token st) =
                  {| method := Some "GET"; mode := None;
                     headers :=
                       Some {[ "Content-Type" := HStr "application/json";
                               "Authorization" := HStr ("Bearer " +:+ tok) ]};
                     body := None; params := None |}).
  { now rewrite Htok. }
  assert (Hst2 : st2 = loggedOut h st1).
  { unfold st2. rewrite (request_dispatch h _ _ _ _ _ _ _ _ Hbody), Hnet.
    fold st1.
    rewrite respond_revalidate;
      [|assumption | unfold st1; now rewrite dispatched_token].
    unfold st1 at 1 2. rewrite dispatched_fetches, dispatched_token.
    rewrite Hopts, Hme. reflexivity. }
  assert (Htok2 : token st2 = None) by now rewrite Hst2.
  assert (Hloc2 : location st2 = Some login) by now rewrite Hst2.
  split; [assumption|]. split; [assumption|].
  intros rev' url' options' watch' stringify' fuel'.
  destruct (request_anonymous h rev' url' options' watch' stringify' fuel' st2)
    as (Ht' & Hl' & Hn'); [now rewrite Htok2|].
  split; [congruence|]. split; [congruence|]. split.
  - exact Hn'.
  - intros body'' Hbody''.
    destruct (request_first_fetch h rev' url' options' watch' stringify'
                fuel' st2 body'' Hbody'') as (logs & rest & Hlogs & Htrace).
    exists logs, rest. split; [assumption|].
    rewrite Htrace. unfold dispatchOptions, requestOptions.
    rewrite requestHeaders_falsy; [reflexivity | now rewrite Htok2].
Qed.

Lemma request_after_logout_witness :
  receives hostExpired Part000 "/users" noOptions true (st0 (Some "jwt"))
           None unauthorized
  /\ status unauthorized = 401
  /\ token (st0 (Some "jwt")) = Some "jwt"
  /\ truthyStr (token (st0 (Some "jwt"))) = true
  /\ net hostExpired (S (fetches (st0 (Some "jwt"))))
         (backendURL hostExpired +:+ "/user/me")
         {| method := Some "GET"; mode := None;
            headers := Some {[ "Content-Type" := HStr "application/json";
                               "Authorization" := HStr "Bearer jwt" ]};
            body := None; params := None |} = FResolve unauthorized
  /\ token (snd (request hostExpired Part000 "/users" noOptions false true 0
                         (st0 (Some "jwt")))) = None
  /\ location (snd (request hostExpired Part000 "/users" noOptions false true
                            0 (st0 (Some "jwt"))))
     = Some "/admin/plugins/users-permissions/auth/login".
Proof.
  assert (Hrec : receives hostExpired Part000 "/users" noOptions true
                          (st0 (Some "jwt")) None unauthorized).
  { split; reflexivity. }
  split; [exact Hrec|]. split; [reflexivity|]. split; [reflexivity|].
  split; [reflexivity|]. split; [reflexivity|].
  split.
  - exact (proj1 (request_after_logout hostExpired Part000 "/users" noOptions
                    false true 0%nat (st0 (Some "jwt")) None unauthorized
                    unauthorized "jwt" Hrec eq_refl eq_refl eq_refl eq_refl)).
  - exact (proj1 (proj2 (request_after_logout hostExpired Part000 "/users"
                           noOptions false true 0%nat (st0 (Some "jwt")) None
                           unauthorized unauthorized "jwt" Hrec eq_refl
                           eq_refl eq_refl eq_refl))).
Defined.

(** ** The query string *)

(** The query string can be read back: splitting it at [&] and [=] and
    decoding the pieces gives the entries of [params], in order, whatever
    characters keys and values hold ([&], [=], [%], spaces, bytes of
    multi-byte characters). Two parameter objects therefore never format
    to the same query string. *)
Theorem formatQueryParams_round_trip (ps : Params) :
  List.NoDup (keys ps) ->
  parseQuery (formatQueryParams ps) = Some ps /\
  forall ps', List.NoDup (keys ps') ->
    formatQueryParams ps' = formatQueryParams ps -> ps' = ps.
Proof.
  intros Hnd. split; [now apply parseQuery_format|].
  intros ps' Hnd' Heq.
  pose proof (parseQuery_format ps' Hnd') as H'.
  rewrite Heq, (parseQuery_format ps Hnd) in H'. congruence.
Qed.

Lemma formatQueryParams_round_trip_witness :
  List.NoDup (keys [("_q", "a b&c=d"); ("sort", "name:asc")])
  /\ parseQuery (formatQueryParams [("_q", "a b&c=d"); ("sort", "name:asc")])
     = Some [("_q", "a b&c=d"); ("sort", "name:asc")].
Proof.
  assert (Hnd : List.NoDup (keys [("_q", "a b&c=d"); ("sort", "name:asc")])).
  { repeat constructor; cbn; intuition discriminate. }
  split; [exact Hnd|].
  exact (proj1 (formatQueryParams_round_trip
                  [("_q", "a b&c=d"); ("sort", "name:asc")] Hnd)).
Defined.

Lemma allChars_append (p : ascii -> bool) (a b : string) :
  allChars p (a +:+ b) = allChars p a && allChars p b.
Proof.
  induction a as [|c a IH]; [reflexivity|].
  simpl. now rewrite IH, andb_assoc.
Qed.

Lemma encodeByte_chars (c : ascii) : allChars isQueryChar (encodeByte c) = true.
Proof. destruct c as [[] [] [] [] [] [] [] []]; reflexivity. Qed.

Lemma encodeURIComponent_chars (s : string) :
  allChars isQueryChar (encodeURIComponent s) = true.
Proof.
  induction s as [|c s IH]; [reflexivity|].
  cbn [encodeURIComponent]. now rewrite allChars_append, encodeByte_chars, IH.
Qed.

Lemma concat_chars (l : list string) :
  Forall (fun s => allChars isQueryChar s = true) l ->
  allChars isQueryChar (String.concat "&" l) = true.
Proof.
  induction 1 as [|x l Hx Hl IH]; [reflexivity|].
  destruct l as [|y l]; [exact Hx|].
  replace (String.concat "&" (x :: y :: l))
    with (x +:+ String "&" (String.concat "&" (y :: l))) by reflexivity.
  rewrite allChars_append, Hx. simpl. exact IH.
Qed.

Lemma allChars_ext (p q : ascii -> bool) (s : string) :
  (forall c, p c = q c) -> allChars p s = allChars q s.
Proof.
  intros H. induction s as [|c s IH]; [reflexivity|].
  simpl. now rewrite H, IH.
Qed.

Lemma queryChar_listed (c : ascii) :
  isQueryChar c =
  occurs c
    "ABCDEFGHIJKLMNOPQRSTUVWXYZabcdefghijklmnopqrstuvwxyz0123456789-_.!~*'()%&=".
Proof. destruct c as [[] [] [] [] [] [] [] []]; reflexivity. Qed.

Lemma unreserved_listed (c : ascii) :
  isUnreserved c =
  occurs c
    "ABCDEFGHIJKLMNOPQRSTUVWXYZabcdefghijklmnopqrstuvwxyz0123456789-_.!~*'()".
Proof. destruct c as [[] [] [] [] [] [] [] []]; reflexivity. Qed.

Lemma encodeURIComponent_unreserved (s : string) :
  allChars isUnreserved s = true -> encodeURIComponent s = s.
Proof.
  induction s as [|c s IH]; [reflexivity|].
  simpl. intros H. apply andb_prop in H as [Hc Hs].
  unfold encodeByte. rewrite Hc. simpl. now rewrite IH.
Qed.

(** Whatever the parameters hold, every character of the query string is
    a letter [A-Z a-z], a digit [0-9], one of the marks
    [- _ . ! ~ * ' ( )], or one of [%], [&] and [=]: no space, no [?],
    [#] or [/] reaches the URL through it. A key and a value made of
    letters, digits and those marks only are written as they are. *)
Theorem formatQueryParams_characters (ps : Params) :
  allChars
    (fun c =>
       occurs c
         "ABCDEFGHIJKLMNOPQRSTUVWXYZabcdefghijklmnopqrstuvwxyz0123456789-_.!~*'()%&=")
    (formatQueryParams ps) = true
  /\
  forall k v : string,
    allChars
      (fun c =>
         occurs c
           "ABCDEFGHIJKLMNOPQRSTUVWXYZabcdefghijklmnopqrstuvwxyz0123456789-_.!~*'()")
      k = true ->
    allChars
      (fun c =>
         occurs c
           "ABCDEFGHIJKLMNOPQRSTUVWXYZabcdefghijklmnopqrstuvwxyz0123456789-_.!~*'()")
      v = true ->
    formatQueryParams [(k, v)] = k +:+ "=" +:+ v.
Proof.
  split.
  - rewrite <- (allChars_ext isQueryChar _ _ queryChar_listed).
    unfold formatQueryParams. apply concat_chars.
    apply List.Forall_forall. intros s Hs.
    apply in_map_iff in Hs as (k & <- & _).
    unfold formatPair. rewrite !allChars_append, !encodeURIComponent_chars.
    reflexivity.
  - intros k v Hk Hv.
    rewrite <- (allChars_ext isUnreserved _ k unreserved_listed) in Hk.
    rewrite <- (allChars_ext isUnreserved _ v unreserved_listed) in Hv.
    unfold formatQueryParams, formatPair. cbn [keys map fst prop].
    rewrite String.eqb_refl. cbn [default String.concat].
    now rewrite !encodeURIComponent_unreserved.
Qed.

Lemma formatQueryParams_characters_witness :
  allChars
    (fun c =>
       occurs c
         "ABCDEFGHIJKLMNOPQRSTUVWXYZabcdefghijklmnopqrstuvwxyz0123456789-_.!~*'()")
    "sort" = true
  /\ allChars
       (fun c =>
          occurs c
            "ABCDEFGHIJKLMNOPQRSTUVWXYZabcdefghijklmnopqrstuvwxyz0123456789-_.!~*'()")
       "name.asc" = true
  /\ formatQueryParams [("sort", "name.asc")] = "sort=name.asc".
Proof.
  split; [reflexivity|]. split; [reflexivity|].
  exact (proj2 (formatQueryParams_characters []) "sort" "name.asc"
               eq_refl eq_refl).
Defined.

(** ** More on the captions *)

Lemma captions_hold_no_file (body : FormData) (fields : list string) :
  List.filter (fun e => isFile (snd e)) (flat_map (captionsOf body) fields)
  = [].
Proof.
  induction fields as [|f fields IH]; [reflexivity|].
  simpl. rewrite List.filter_app, IH, app_nil_r.
  unfold captionsOf. induction (filesOf body f); [reflexivity | assumption].
Qed.

Lemma fileFieldsOf_captions (body : FormData) (fields : list string) :
  fileFieldsOf (body ++ flat_map (captionsOf body) fields) = fileFieldsOf body.
Proof.
  unfold fileFieldsOf.
  now rewrite List.filter_app, captions_hold_no_file, app_nil_r.
Qed.

Lemma captionsOf_captions (body : FormData) (fields : list string)
    (f : string) :
  captionsOf (body ++ flat_map (captionsOf body) fields) f = captionsOf body f.
Proof.
  unfold captionsOf at 1 3. unfold filesOf.
  now rewrite getAll_app, filesIn_app, filesOf_flat_map, app_nil_r.
Qed.

Lemma filesOf_length (body : FormData) (f : string) :
  length (filesOf body f)
  = length (List.filter
              (fun e => isFile (snd e) && String.eqb (fst e) f) body).
Proof.
  unfold filesOf, getAll.
  induction body as [|[n v] body IH]; [reflexivity|].
  simpl. destruct (String.eqb n f), v as [s|x]; simpl; now rewrite ?IH.
Qed.

Lemma filter_disjoint_length {A} (p q : A -> bool) (l : list A) :
  (forall x, p x && q x = false) ->
  length (List.filter (fun x => p x || q x) l)
  = (length (List.filter p l) + length (List.filter q l))%nat.
Proof.
  intros Hd. induction l as [|x l IH]; [reflexivity|].
  simpl. specialize (Hd x).
  destruct (p x), (q x); simpl in *; try discriminate; rewrite IH; lia.
Qed.

Lemma captions_length (body : FormData) (fields : list string) :
  List.NoDup fields ->
  length (flat_map (captionsOf body) fields)
  = length (List.filter
              (fun e => isFile (snd e) && existsb (String.eqb (fst e)) fields)
              body).
Proof.
  induction 1 as [|f fields Hfresh Hnd IH].
  - simpl. induction body as [|e body IHb]; [reflexivity|].
    simpl. now rewrite andb_false_r.
  - simpl. rewrite length_app, IH.
    unfold captionsOf. rewrite length_map, filesOf_length.
    rewrite <- filter_disjoint_length.
    + f_equal. apply List.filter_ext. intros e.
      now rewrite <- andb_orb_distrib_r.
    + intros e. destruct (isFile (snd e)); [|reflexivity]. simpl.
      destruct (String.eqb_spec (fst e) f) as [->|Hne]; [|reflexivity].
      simpl. destruct (existsb (String.eqb f) fields) eqn:E; [|reflexivity].
      apply existsb_exists in E as (x & Hin & Hx).
      apply String.eqb_eq in Hx. subst x. contradiction.
Qed.

Lemma appendCaptions_count (body : FormData) :
  length (flat_map (captionsOf body) (fileFieldsOf body)) = countFiles body.
Proof.
  rewrite captions_length by apply dedupe_NoDup.
  unfold countFiles. f_equal. apply List.filter_ext_in. intros [n v] Hin.
  simpl. destruct (isFile v) eqn:Hv; [|reflexivity]. simpl.
  apply existsb_exists. exists n. split; [|apply String.eqb_refl].
  unfold fileFieldsOf. apply dedupe_In. split; [|reflexivity].
  apply in_map_iff. exists (n, v). split; [reflexivity|].
  now apply List.filter_In.
Qed.

(** The captions are added, and nothing else changes: the body grows by
    one entry per [File] entry it holds, the [File] entries of every
    field are the same before and after, and so is their number. *)
Theorem appendCaptions_grows_by_files (body : FormData) :
  length (appendCaptions body) = (length body + countFiles body)%nat
  /\ (forall field,
        filesOf (appendCaptions body) field = filesOf body field)
  /\ countFiles (appendCaptions body) = countFiles body
  /\ fileFieldsOf (appendCaptions body) = fileFieldsOf body.
Proof.
  rewrite appendCaptions_appended. split; [|split; [|split]].
  - now rewrite length_app, appendCaptions_count.
  - intros field. unfold filesOf.
    now rewrite getAll_app, filesIn_app, filesOf_flat_map, app_nil_r.
  - unfold countFiles.
    now rewrite List.filter_app, captions_hold_no_file, app_nil_r.
  - apply fileFieldsOf_captions.
Qed.

(** A multipart body without any [File] entry goes through the branch
    untouched, in both copies. *)
Theorem multipart_without_files (body : FormData) :
  (forall e, In e body -> isFile (snd e) = false) ->
  appendCaptions body = body /\
  forall h rev st,
    fst (requestBody h rev (Some (BForm body)) false st)
    = Ok (Some (BForm body)).
Proof.
  intros Hnone.
  assert (Hfields : fileFieldsOf body = []).
  { unfold fileFieldsOf.
    replace (List.filter (fun e => isFile (snd e)) body) with (@nil (string * FormValue));
      [reflexivity|].
    symmetry. induction body as [|e body IH]; [reflexivity|].
    simpl. rewrite (Hnone e (or_introl eq_refl)).
    apply IH. intros x Hx. apply Hnone. now right. }
  assert (Happ : appendCaptions body = body).
  { rewrite appendCaptions_appended, Hfields. simpl. apply app_nil_r. }
  split; [exact Happ|].
  intros h [] st; simpl; [now rewrite collectCaptions_id | now rewrite Happ].
Qed.

Lemma multipart_without_files_witness :
  (forall e, In e [("title", FString "Pets"); ("tags", FString "a,b")] ->
             isFile (snd e) = false)
  /\ appendCaptions [("title", FString "Pets"); ("tags", FString "a,b")]
     = [("title", FString "Pets"); ("tags", FString "a,b")].
Proof.
  assert (Hnone : forall e,
            In e [("title", FString "Pets"); ("tags", FString "a,b")] ->
            isFile (snd e) = false).
  { intros e [<-|[<-|[]]]; reflexivity. }
  split; [exact Hnone|].
  exact (proj1 (multipart_without_files
                  [("title", FString "Pets"); ("tags", FString "a,b")] Hnone)).
Defined.

(** The branch is not idempotent. [append] changes the [FormData] the
    caller passed, so that a second call with the same object runs the
    branch on the body the first call left: the same captions are
    appended once more. *)
Theorem appendCaptions_twice (body : FormData) :
  appendCaptions (appendCaptions body)
  = appendCaptions body ++ flat_map (captionsOf body) (fileFieldsOf body)
  /\ length (appendCaptions (appendCaptions body))
     = (length body + 2 * countFiles body)%nat.
Proof.
  assert (Htwice : appendCaptions (appendCaptions body)
                   = appendCaptions body
                     ++ flat_map (captionsOf body) (fileFieldsOf body)).
  { rewrite (appendCaptions_appended (appendCaptions body)).
    rewrite (appendCaptions_appended body) at 2 3.
    rewrite fileFieldsOf_captions. f_equal.
    apply flat_map_ext. intros f. apply captionsOf_captions. }
  split; [exact Htwice|].
  rewrite Htwice, length_app, appendCaptions_count.
  rewrite appendCaptions_appended, length_app, appendCaptions_count. lia.
Qed.

(** The watcher stops at the first health check that resolves. A run
    that ends fulfilled is made of some number [k] of failed polls, each
    followed by its timer, then the poll that resolved and [unlockApp];
    it is fulfilled with the response given, and however much longer one
    watches, nothing is added: no further poll is issued. *)
Theorem watcher_stops_at_first_success (h : Host) (response : Value)
    (fuel : nat) :
  forall (st : State) (v : Value),
  fst (serverRestartWatcher h fuel response st) = Fulfilled v ->
  v = response
  /\ (exists k, (k < fuel)%nat /\
        trace (snd (serverRestartWatcher h fuel response st))
        = trace st ++ failedPolls h k ++
          [EFetch (backendURL h +:+ "/_health") healthOptions; EUnlockApp]
        /\ fetches (snd (serverRestartWatcher h fuel response st))
           = (fetches st + S k)%nat)
  /\ forall fuel', (fuel <= fuel')%nat ->
       serverRestartWatcher h fuel' response st
       = serverRestartWatcher h fuel response st.
Proof.
  induction fuel as [|fuel IH]; intros st v Hv; [discriminate|].
  destruct (net h (fetches st) (healthURL h) healthOptions)
    as [hr|reason] eqn:E.
  - rewrite (watcher_resolves h response hr) in * by assumption.
    cbn [fst snd trace fetches] in *. split; [congruence|]. split.
    + exists O. split; [lia|]. split; [reflexivity | lia].
    + intros fuel' Hle. destruct fuel' as [|fuel']; [lia|].
      now rewrite (watcher_resolves h response hr).
  - rewrite (watcher_retries h response reason) in * by assumption.
    destruct (IH _ v Hv) as (Heq & (k & Hk & Htr & Hn) & Hmore).
    split; [exact Heq|]. split.
    + exists (S k). split; [lia|]. rewrite Htr, Hn. cbn [trace fetches].
      split; [|lia]. rewrite <- app_assoc. reflexivity.
    + intros fuel' Hle. destruct fuel' as [|fuel']; [lia|].
      rewrite (watcher_retries h response reason) by assumption.
      apply Hmore. lia.
Qed.

Lemma watcher_stops_at_first_success_witness :
  fst (serverRestartWatcher (hostScript [FReject "Failed to fetch";
                                         FResolve badGateway])
         2 (VJson JNull) (st0 None)) = Fulfilled (VJson JNull)
  /\ forall fuel', (2 <= fuel')%nat ->
       serverRestartWatcher (hostScript [FReject "Failed to fetch";
                                         FResolve badGateway])
         fuel' (VJson JNull) (st0 None)
       = serverRestartWatcher (hostScript [FReject "Failed to fetch";
                                           FResolve badGateway])
           2 (VJson JNull) (st0 None).
Proof.
  split; [reflexivity|].
  exact (proj2 (proj2 (watcher_stops_at_first_success
                         (hostScript [FReject "Failed to fetch";
                                      FResolve badGateway])
                         (VJson JNull) 2 (st0 None) (VJson JNull) eq_refl))).
Defined.

(** * Properties of the file input widget *)

Module InputFileFacts.

Import InputFile.

Lemma sent_app (a b : list Call) :
  sent (a ++ b) = match sent b with Some v => Some v | None => sent a end.
Proof.
  unfold sent. rewrite fold_left_app.
  generalize (fold_left
                (fun acc c => match c with OnChange _ v => Some v | _ => acc end)
                a None).
  induction b as [|c b IH] using rev_ind; intros acc; [reflexivity|].
  rewrite !fold_left_app. simpl. destruct c; try apply IH; reflexivity.
Qed.

Lemma captionAt_assignAt (i : nat) (c : string) (l : list (option string)) :
  captionAt (assignAt i c l) i = Some c /\
  forall j, j <> i -> (j < length l)%nat ->
    captionAt (assignAt i c l) j = captionAt l j.
Proof.
  unfold captionAt, assignAt.
  destruct (Nat.ltb_spec i (length l)) as [Hlt|Hge].
  - split.
    + now rewrite list_lookup_insert_eq.
    + intros j Hj _. now rewrite list_lookup_insert_ne.
  - split.
    + rewrite lookup_app_r by lia.
      rewrite lookup_app_r by (rewrite length_replicate; lia).
      rewrite length_replicate.
      now replace (i - length l - (i - length l))%nat with O by lia.
    + intros j _ Hj. now rewrite lookup_app_l.
Qed.

(** In multiple mode, dropping files on a widget that holds an array
    sends the array followed by the dropped files, in order; the files
    already there are untouched. The [i]-th dropped file is given the
    caption stored for position [i] of the widget, whatever position it
    lands on, and loses the caption it had. *)
Theorem addFiles_appends (props : Props) (st : State) (l files : list File) :
  multiple props = true ->
  value props = VArray l ->
  files <> [] ->
  exists added,
    addFilesToProps props st files =
    ([ResetInput; SetState (SetIsUploading (negb (isUploading st)));
      OnChange (name props) (VArray (l ++ added))], None)
    /\ length added = length files
    /\ (forall i f, files !! i = Some f ->
          (l ++ added) !! (length l + i)%nat
          = Some {| fileName := fileName f;
                    caption := captionAt (captions st) i |})
    /\ (forall i, (i < length l)%nat -> (l ++ added) !! i = l !! i).
Proof.
  intros Hm Hv Hne.
  exists (imap (fun i f => withCaption f (captionAt (captions st) i)) files).
  split; [|split; [|split]].
  - unfold addFilesToProps. destruct files as [|f files]; [contradiction|].
    now rewrite Hm, Hv.
  - apply length_imap.
  - intros i f Hi. rewrite lookup_app_r by lia.
    replace (length l + i - length l)%nat with i by lia.
    rewrite list_lookup_imap, Hi. reflexivity.
  - intros i Hi. now rewrite lookup_app_l.
Qed.

Lemma addFiles_appends_witness :
  multiple {| multiple := true; name := "media"; value := VArray [cat] |}
  = true
  /\ value {| multiple := true; name := "media"; value := VArray [cat] |}
     = VArray [cat]
  /\ [dog] <> []
  /\ exists added,
       addFilesToProps
         {| multiple := true; name := "media"; value := VArray [cat] |}
         initial [dog] =
       ([ResetInput; SetState (SetIsUploading (negb (isUploading initial)));
         OnChange "media" (VArray ([cat] ++ added))], None)
       /\ length added = length [dog]
       /\ (forall i f, [dog] !! i = Some f ->
             ([cat] ++ added) !! (length [cat] + i)%nat
             = Some {| fileName := fileName f;
                       caption := captionAt (captions initial) i |})
       /\ (forall i, (i < length [cat])%nat ->
             ([cat] ++ added) !! i = [cat] !! i).
Proof.
  assert (Hne : [dog] <> []) by discriminate.
  split; [reflexivity|]. split; [reflexivity|]. split; [exact Hne|].
  exact (addFiles_appends
           {| multiple := true; name := "media"; value := VArray [cat] |}
           initial [cat] [dog] eq_refl eq_refl Hne).
Defined.

Lemma delete_past_end {A} (l : list A) :
  forall i, (length l <= i)%nat -> delete i l = l.
Proof.
  induction l as [|x l IH]; intros i Hi; [now destruct i|].
  destruct i as [|i]; simpl in *; [lia|].
  f_equal. apply IH. lia.
Qed.

(** Deleting in multiple mode leaves the widget on the last file: the
    value sent is the array without the file at the position (the whole
    array when the position is past its end), or the empty string when no
    file is left; the position becomes the index of the last file that
    remains and the label their number ([false] and position 0 when none
    remains). *)
Theorem delete_moves_to_last (props : Props) (st : State) (l : list File) :
  multiple props = true ->
  value props = VArray l ->
  let run := handleFileDelete props st in
  let rest := delete (position st) l in
  snd run = None
  /\ sent (fst run) = Some match rest with [] => VString "" | _ => VArray rest end
  /\ length rest
     = (if (position st <? length l)%nat then length l - 1 else length l)%nat
  /\ position (stateAfter st (fst run)) = (length rest - 1)%nat
  /\ In (SetLabel match rest with
                  | [] => None
                  | _ => Some (length rest)
                  end) (fst run)
  /\ didDeleteFile (stateAfter st (fst run)) = negb (didDeleteFile st).
Proof.
  intros Hm Hv run rest. unfold run, handleFileDelete. rewrite Hm, Hv.
  fold rest. cbn [fst snd].
  split; [reflexivity|]. split; [reflexivity|]. split; [|split; [|split]].
  - unfold rest. destruct (Nat.ltb_spec (position st) (length l)) as [Hlt|Hge].
    + apply length_delete. now apply lookup_lt_is_Some.
    + now rewrite delete_past_end.
  - simpl. destruct (length rest); simpl; lia.
  - simpl. right. right. right. right. left.
    destruct rest as [|f rest']; simpl; [reflexivity|].
    f_equal. f_equal. lia.
  - reflexivity.
Qed.

Lemma delete_moves_to_last_witness :
  multiple {| multiple := true; name := "media"; value := VArray [cat; dog] |}
  = true
  /\ value {| multiple := true; name := "media"; value := VArray [cat; dog] |}
     = VArray [cat; dog]
  /\ sent (fst (handleFileDelete
                  {| multiple := true; name := "media";
                     value := VArray [cat; dog] |} initial))
     = Some match delete (position initial) [cat; dog] with
            | [] => VString ""
            | _ => VArray (delete (position initial) [cat; dog])
            end.
Proof.
  split; [reflexivity|]. split; [reflexivity|].
  exact (proj1 (proj2 (delete_moves_to_last
                         {| multiple := true; name := "media";
                            value := VArray [cat; dog] |}
                         initial [cat; dog] eq_refl eq_refl))).
Defined.

(** A delete in multiple mode replaces the captions kept in the state by
    what [splice] returns, the caption of the position deleted: it is
    kept at index 0, and the captions typed for the other positions are
    forgotten. *)
Theorem delete_forgets_captions (props : Props) (st : State) (l : list File) :
  multiple props = true ->
  value props = VArray l ->
  let st' := stateAfter st (fst (handleFileDelete props st)) in
  (length (captions st') <= 1)%nat
  /\ captionAt (captions st') 0 = captionAt (captions st) (position st)
  /\ forall i, (1 <= i)%nat -> captionAt (captions st') i = None.
Proof.
  intros Hm Hv st'. unfold st', handleFileDelete. rewrite Hm, Hv.
  cbn [fst stateAfter fold_left app updateFilePosition applyPatch captions
       didDeleteFile isUploading position].
  unfold captionAt.
  destruct (captions st !! position st) as [c|]; simpl.
  - split; [lia|]. split; [reflexivity|].
    intros i Hi. destruct i; [lia | reflexivity].
  - split; [lia|]. split; [reflexivity|]. intros i _. now destruct i.
Qed.

Lemma delete_forgets_captions_witness :
  multiple {| multiple := true; name := "media"; value := VArray [cat; dog] |}
  = true
  /\ value {| multiple := true; name := "media"; value := VArray [cat; dog] |}
     = VArray [cat; dog]
  /\ forall i, (1 <= i)%nat ->
       captionAt
         (captions
            (stateAfter
               {| didDeleteFile := false; isUploading := false; position := 0;
                  captions := [Some "A cat"; Some "A dog"] |}
               (fst (handleFileDelete
                       {| multiple := true; name := "media";
                          value := VArray [cat; dog] |}
                       {| didDeleteFile := false; isUploading := false;
                          position := 0;
                          captions := [Some "A cat"; Some "A dog"] |}))))
         i = None.
Proof.
  split; [reflexivity|]. split; [reflexivity|].
  exact (proj2 (proj2 (delete_forgets_captions
                         {| multiple := true; name := "media";
                            value := VArray [cat; dog] |}
                         {| didDeleteFile := false; isUploading := false;
                            position := 0;
                            captions := [Some "A cat"; Some "A dog"] |}
                         [cat; dog] eq_refl eq_refl))).
Defined.

(** Deleting the last file of a multiple widget sends the empty string.
    If the parent hands that value back as [props.value], the widget can
    no longer add files: [addFilesToProps] throws on the first file, and
    neither resets the input nor calls [onChange]; a further delete
    throws as well. *)
Theorem delete_all_then_add_throws (props : Props) (st : State)
    (l : list File) :
  multiple props = true ->
  value props = VArray l ->
  delete (position st) l = [] ->
  sent (fst (handleFileDelete props st)) = Some (VString "")
  /\ forall st' files,
       files <> [] ->
       addFilesToProps (withValue props (VString "")) st' files
       = ([], Some (TypeError "acc.push is not a function"))
       /\ handleFileDelete (withValue props (VString "")) st'
          = ([PreventDefault; StopPropagation],
             Some (TypeError "value.splice is not a function")).
Proof.
  intros Hm Hv Hd. split.
  - unfold handleFileDelete. rewrite Hm, Hv, Hd. reflexivity.
  - intros st' files Hne. split.
    + unfold addFilesToProps, withValue. cbn [multiple value].
      rewrite Hm. destruct files; [contradiction | reflexivity].
    + unfold handleFileDelete, withValue. cbn [multiple value].
      now rewrite Hm.
Qed.

Lemma delete_all_then_add_throws_witness :
  multiple {| multiple := true; name := "media"; value := VArray [cat] |}
  = true
  /\ value {| multiple := true; name := "media"; value := VArray [cat] |}
     = VArray [cat]
  /\ delete (position initial) [cat] = []
  /\ sent (fst (handleFileDelete
                  {| multiple := true; name := "media";
                     value := VArray [cat] |} initial))
     = Some (VString "").
Proof.
  split; [reflexivity|]. split; [reflexivity|]. split; [reflexivity|].
  exact (proj1 (delete_all_then_add_throws
                  {| multiple := true; name := "media";
                     value := VArray [cat] |}
                  initial [cat] eq_refl eq_refl eq_refl)).
Defined.

(** The details of the file are shown exactly when the widget holds a
    file: every value [addFilesToProps] sends makes [isVisibleDetails]
    true, and a value [handleFileDelete] sends makes it true only in
    multiple mode with a file left. *)
Theorem details_follow_files (props : Props) (st : State) :
  (forall files v,
     sent (fst (addFilesToProps props st files)) = Some v ->
     isVisibleDetails (withValue props v) = true)
  /\
  (forall v,
     sent (fst (handleFileDelete props st)) = Some v ->
     isVisibleDetails (withValue props v)
     = match value props with
       | VArray l =>
           multiple props && negb (length (delete (position st) l) =? 0)%nat
       | _ => false
       end).
Proof.
  split.
  - intros files v. unfold addFilesToProps.
    destruct files as [|f files]; [discriminate|].
    destruct (multiple props).
    + destruct (value props) as [s|o|l]; try discriminate.
      cbn. intros H. injection H as <-. cbn.
      rewrite length_app. cbn. now destruct (length l).
    + cbn. intros H. now injection H as <-.
  - intros v. unfold handleFileDelete.
    destruct (multiple props).
    + destruct (value props) as [s|o|l]; try discriminate.
      cbn. intros H. injection H as <-.
      destruct (delete (position st) l); reflexivity.
    + cbn. intros H. injection H as <-.
      now destruct (value props).
Qed.

(** A caption typed in the widget is stored for the position shown, the
    captions of the positions before it are kept, and the next files
    dropped in multiple mode take it: the file dropped at that index
    carries the caption typed, the attribute [request] turns into the
    [<field>Captions] entry. *)
Theorem typed_caption_reaches_file (props : Props) (st : State)
    (typed : string) :
  let st' := stateAfter st (fst (addCaptionToValue props st typed)) in
  position st' = position st
  /\ captionAt (captions st') (position st) = Some typed
  /\ (forall j, j <> position st -> (j < length (captions st))%nat ->
        captionAt (captions st') j = captionAt (captions st) j)
  /\ forall props' l files f,
       multiple props' = true ->
       value props' = VArray l ->
       files !! position st = Some f ->
       exists now,
         sent (fst (addFilesToProps props' st' files)) = Some (VArray now) /\
         now !! (length l + position st)%nat
         = Some {| fileName := fileName f; caption := Some typed |}.
Proof.
  intros st'.
  assert (Hst' : st' = applyPatch st
                         (SetCaptions (assignAt (position st) typed
                                                (captions st)))).
  { unfold st', addCaptionToValue.
    destruct (value props) as [s|o|l].
    - now destruct (position st <? utf16Length s)%nat.
    - now destruct (lookupKey o (keyOf (position st))).
    - now destruct (l !! position st). }
  destruct (captionAt_assignAt (position st) typed (captions st))
    as [Hat Hother].
  rewrite Hst'. cbn [applyPatch position captions].
  split; [reflexivity|]. split; [exact Hat|]. split; [exact Hother|].
  intros props' l files f Hm Hv Hf.
  assert (Hne : files <> []) by (intros ->; discriminate).
  unfold addFilesToProps. destruct files as [|f0 files]; [contradiction|].
  rewrite Hm, Hv. cbn [fst sent fold_left captions].
  eexists. split; [reflexivity|].
  rewrite lookup_app_r by lia.
  replace (length l + position st - length l)%nat with (position st) by lia.
  rewrite list_lookup_imap, Hf. cbn. unfold withCaption. now rewrite Hat.
Qed.

(** Typing a caption on an array value changes the file shown and no
    other: the array sent has the same length, the file at the position
    carries the caption typed, every other file is as it was. When there
    is no file at the position the caption is stored but nothing is
    sent. *)
Theorem addCaption_updates_one_file (props : Props) (st : State)
    (typed : string) (l : list File) :
  value props = VArray l ->
  (forall f, l !! position st = Some f ->
     exists l',
       sent (fst (addCaptionToValue props st typed)) = Some (VArray l') /\
       length l' = length l /\
       l' !! position st
       = Some {| fileName := fileName f; caption := Some typed |} /\
       forall j, j <> position st -> l' !! j = l !! j)
  /\
  (l !! position st = None ->
   addCaptionToValue props st typed
   = ([SetState (SetCaptions (assignAt (position st) typed (captions st)))],
      None)).
Proof.
  intros Hv. unfold addCaptionToValue. rewrite Hv. split.
  - intros f Hf. rewrite Hf. eexists. split; [reflexivity|].
    split; [apply length_insert|]. split.
    + apply list_lookup_insert_eq. now apply lookup_lt_Some in Hf.
    + intros j Hj. now apply list_lookup_insert_ne.
  - intros Hnone. now rewrite Hnone.
Qed.

Lemma addCaption_updates_one_file_witness :
  value {| multiple := true; name := "media"; value := VArray [dog; cat] |}
  = VArray [dog; cat]
  /\ [dog; cat] !! position initial = Some dog
  /\ exists l',
       sent (fst (addCaptionToValue
                    {| multiple := true; name := "media";
                       value := VArray [dog; cat] |} initial "A dog"))
       = Some (VArray l') /\
       length l' = length [dog; cat] /\
       l' !! position initial
       = Some {| fileName := fileName dog; caption := Some "A dog" |} /\
       forall j, j <> position initial -> l' !! j = [dog; cat] !! j.
Proof.
  split; [reflexivity|]. split; [reflexivity|].
  exact (proj1 (addCaption_updates_one_file
                  {| multiple := true; name := "media";
                     value := VArray [dog; cat] |}
                  initial "A dog" [dog; cat] eq_refl) dog eq_refl).
Defined.

(** Adding one file and deleting it again gives the array back: in
    multiple mode, once the parent has stored the value sent by
    [addFilesToProps] and the widget shows the file added (the last one),
    [handleFileDelete] sends the array as it was before the file was
    added, and the widget moves to its last file. *)
Theorem add_then_delete_restores (props : Props) (st st' : State)
    (l : list File) (f : File) :
  multiple props = true ->
  value props = VArray l ->
  l <> [] ->
  position st' = length l ->
  exists added,
    sent (fst (addFilesToProps props st [f])) = Some added /\
    sent (fst (handleFileDelete (withValue props added) st'))
    = Some (VArray l) /\
    position (stateAfter st' (fst (handleFileDelete (withValue props added)
                                                    st')))
    = (length l - 1)%nat.
Proof.
  intros Hm Hv Hne Hpos.
  exists (VArray (l ++ [withCaption f (captionAt (captions st) 0)])).
  assert (Hdel : delete (length l)
                   (l ++ [withCaption f (captionAt (captions st) 0)]) = l).
  { rewrite delete_middle. apply app_nil_r. }
  split.
  - unfold addFilesToProps. now rewrite Hm, Hv.
  - unfold handleFileDelete, withValue. cbn [multiple value name].
    rewrite Hm, Hpos, Hdel. cbn [fst].
    destruct l as [|x l']; [contradiction|]. split; [reflexivity|].
    simpl. lia.
Qed.

Lemma add_then_delete_restores_witness :
  multiple {| multiple := true; name := "media"; value := VArray [cat] |}
  = true
  /\ value {| multiple := true; name := "media"; value := VArray [cat] |}
     = VArray [cat]
  /\ [cat] <> []
  /\ position {| didDeleteFile := false; isUploading := true; position := 1;
                 captions := [] |} = length [cat]
  /\ exists added,
       sent (fst (addFilesToProps
                    {| multiple := true; name := "media";
                       value := VArray [cat] |} initial [dog]))
       = Some added /\
       sent (fst (handleFileDelete
                    (withValue {| multiple := true; name := "media";
                                  value := VArray [cat] |} added)
                    {| didDeleteFile := false; isUploading := true;
                       position := 1; captions := [] |}))
       = Some (VArray [cat]) /\
       position
         (stateAfter
            {| didDeleteFile := false; isUploading := true; position := 1;
               captions := [] |}
            (fst (handleFileDelete
                    (withValue {| multiple := true; name := "media";
                                  value := VArray [cat] |} added)
                    {| didDeleteFile := false; isUploading := true;
                       position := 1; captions := [] |})))
       = (length [cat] - 1)%nat.
Proof.
  assert (Hne : [cat] <> []) by discriminate.
  split; [reflexivity|]. split; [reflexivity|]. split; [exact Hne|].
  split; [reflexivity|].
  exact (add_then_delete_restores
           {| multiple := true; name := "media"; value := VArray [cat] |}
           initial
           {| didDeleteFile := false; isUploading := true; position := 1;
              captions := [] |}
           [cat] dog eq_refl eq_refl Hne eq_refl).
Defined.

(** A string value is indexed by code unit: the three bytes E6 97 A5 are
    one character of one unit, so that a caption typed at position 0
    throws on it and a caption typed at position 1 finds nothing there. *)
Example caption_on_string_sample :
  let value :=
    VString (String (ascii_of_N 230)
               (String (ascii_of_N 151) (String (ascii_of_N 165) ""))) in
  lengthOf value = Some 1%nat
  /\ snd (addCaptionToValue
            {| multiple := false; name := "media"; value := value |}
            initial "A cat")
     = Some (TypeError "Cannot create property 'caption' on string")
  /\ snd (addCaptionToValue
            {| multiple := false; name := "media"; value := value |}
            {| didDeleteFile := false; isUploading := false; position := 1;
               captions := [] |}
            "A cat")
     = None.
Proof. repeat split; reflexivity. Qed.

End InputFileFacts.
